(** * aws-expect: the waiting engine of [aws_expect], embedded and verified

    The development follows the Python package file by file:

    - Python values as far as the two waiters look at them: what an item of
      a table holds and what [json.loads] produces ([None], [bool], [int],
      [float], [str], [list], [dict]), with the [==] of the language;
    - [aws_expect/exceptions.py]: the exception classes;
    - the outside world: the monotonic clock, [time.sleep], the table and
      the object store.  What the outside answers is a script (the answer
      to its n-th interaction and the time that interaction takes); the
      clock, the number of interactions and the trace of what happened are
      a state that every computation threads.  The clock moves when the
      store is called and when the program sleeps; reading it takes no
      time;
    - [aws_expect/dynamodb.py] and [aws_expect/s3.py]: the two waiters.  A
      [while True] loop is a function of the number of turns it may take
      (its fuel), and is [Running] when they are used up; the theorems that
      say that a wait ends give a fuel that is enough.

    Durations ([timeout], [poll_interval], clock readings) are exact
    rationals: a finite Python float is one, and [math.ceil] of it is its
    integer ceiling; sums and differences of durations are taken exactly.
    The one quotient of the package, [timeout / delay] in the configuration
    of the native waits, is rounded as the division of floats rounds it: to
    the nearest float, ties to even. *)

From Stdlib Require Import ZArith QArith Qcanon Qround Qpower Lqa.
From stdpp Require Import base option gmap strings list fin_maps.

#[local] Open Scope Z_scope.
#[local] Open Scope string_scope.
#[local] Open Scope list_scope.

(** ** Python values *)

(** A [float]: not-a-number, an infinity, or a finite value.  The rational is
    kept canonical, so that two finite floats are the same value exactly when
    they are the same number. *)
Inductive pyfloat :=
| FNaN
| FInf (negative : bool)
| FFin (q : Qc).

#[local] Unset Elimination Schemes.
(** The values a record of a table or a parsed JSON document is made of. *)
Inductive pyval :=
| VNone
| VBool (b : bool)
| VInt (z : Z)
| VFloat (f : pyfloat)
| VStr (s : string)
| VList (l : list pyval)
| VDict (d : gmap string pyval).
#[local] Set Elimination Schemes.

(** [dict[str, Any]] *)
Abbreviation pydict := (gmap string pyval).

(** The number a numeric value stands for.  [bool] is a subclass of [int],
    and the language compares an [int] with a [float] by value, without
    rounding the integer. *)
Definition num_of (v : pyval) : option pyfloat :=
  match v with
  | VBool b => Some (FFin (Q2Qc (inject_Z (if b then 1 else 0))))
  | VInt z => Some (FFin (Q2Qc (inject_Z z)))
  | VFloat f => Some f
  | _ => None
  end.

(** [x == y] on numbers: a NaN is equal to nothing, itself included. *)
Definition num_eq (x y : pyfloat) : bool :=
  match x, y with
  | FFin p, FFin q => Qeq_bool (this p) (this q)
  | FInf a, FInf b => Bool.eqb a b
  | _, _ => false
  end.

(** [a == b].  Lists are equal when they have the same length and equal
    elements in order; dicts when they have the same number of keys and every
    key of the left one is bound to an equal value in the right one.  The
    comparison is the one of two separately built values (the shortcut the
    interpreter takes for the very same object inside a container is not
    part of it). *)
Fixpoint py_eq (a b : pyval) {struct a} : bool :=
  match a, b with
  | VNone, VNone => true
  | VStr s, VStr t => String.eqb s t
  | VList l, VList m =>
      (fix elements (l m : list pyval) {struct l} : bool :=
         match l, m with
         | [], [] => true
         | x :: l', y :: m' => py_eq x y && elements l' m'
         | _, _ => false
         end) l m
  | VDict d, VDict e =>
      Nat.eqb (size d) (size e) &&
      map_fold (λ k x acc,
                 acc && match e !! k with
                        | Some y => py_eq x y
                        | None => false
                        end) true d
  | _, _ =>
      match num_of a, num_of b with
      | Some x, Some y => num_eq x y
      | _, _ => false
      end
  end.

(** [d.get(k)]: the value bound to [k], [None] when there is none. *)
Definition dict_get (d : pydict) (k : string) : pyval :=
  default VNone (d !! k).

(** [d.items()] *)
Definition items (d : pydict) : list (string * pyval) := map_to_list d.

(** [all(f(k, v) for k, v in pairs)] *)
Definition all {A} (f : A → bool) (l : list A) : bool := forallb f l.

(** No NaN anywhere inside the value. *)
Fixpoint nan_free (v : pyval) : bool :=
  match v with
  | VFloat FNaN => false
  | VList l => forallb nan_free l
  | VDict d => map_fold (λ _ x acc, acc && nan_free x) true d
  | _ => true
  end.

(** Number of constructors, the measure for induction on values. *)
Fixpoint pv_size (v : pyval) : nat :=
  match v with
  | VList l => S (foldr (λ x acc, pv_size x + acc)%nat 0%nat l)
  | VDict d => S (map_fold (λ _ x acc, pv_size x + acc)%nat 0%nat d)
  | _ => 1%nat
  end.

(** ** aws_expect/exceptions.py *)

Module exceptions.

(** The exception classes the two waiters raise, catch or let through. *)
Inductive pyclass :=
| class_Exception
| class_WaitTimeoutError
| class_S3WaitTimeoutError
| class_DynamoDBWaitTimeoutError
| class_ClientError
| class_WaiterError
| class_ValueError
| class_JSONDecodeError
| class_UnicodeDecodeError
| class_other (name : string).

(** [class C(B)]: the base a class is declared with. *)
Definition base (c : pyclass) : option pyclass :=
  match c with
  | class_Exception => None
  | class_WaitTimeoutError => Some class_Exception
  | class_S3WaitTimeoutError => Some class_WaitTimeoutError
  | class_DynamoDBWaitTimeoutError => Some class_WaitTimeoutError
  | class_ClientError => Some class_Exception
  | class_WaiterError => Some class_Exception
  | class_ValueError => Some class_Exception
  | class_JSONDecodeError => Some class_ValueError
  | class_UnicodeDecodeError => Some class_ValueError
  | class_other _ => Some class_Exception
  end.

Definition class_eqb (c d : pyclass) : bool :=
  match c, d with
  | class_Exception, class_Exception
  | class_WaitTimeoutError, class_WaitTimeoutError
  | class_S3WaitTimeoutError, class_S3WaitTimeoutError
  | class_DynamoDBWaitTimeoutError, class_DynamoDBWaitTimeoutError
  | class_ClientError, class_ClientError
  | class_WaiterError, class_WaiterError
  | class_ValueError, class_ValueError
  | class_JSONDecodeError, class_JSONDecodeError
  | class_UnicodeDecodeError, class_UnicodeDecodeError => true
  | class_other n, class_other m => String.eqb n m
  | _, _ => false
  end.

(** [issubclass(c, d)]: walk up the bases; no chain is longer than three. *)
Fixpoint issubclass_upto (height : nat) (c d : pyclass) : bool :=
  class_eqb c d ||
  match height, base c with
  | S height', Some b => issubclass_upto height' b d
  | _, _ => false
  end.

Definition issubclass : pyclass → pyclass → bool := issubclass_upto 3.

(** One piece of an f-string: literal text, or a formatted field. *)
Inductive fragment :=
| Text (s : string)
| Seconds (q : Q)
| KeyRepr (k : option pydict).

(** An exception object: its class, given by the constructor, and the
    attributes [__init__] stores on it. *)
Inductive exn :=
| mk_S3WaitTimeoutError (bucket key : string) (timeout : Q)
    (args : list fragment)
| mk_DynamoDBWaitTimeoutError (table_name : string) (key : option pydict)
    (timeout : Q) (args : list fragment)
| mk_ClientError (Code : string)
| mk_WaiterError
| mk_ValueError
| mk_JSONDecodeError
| mk_UnicodeDecodeError
| mk_other (name : string).

Definition class_of (e : exn) : pyclass :=
  match e with
  | mk_S3WaitTimeoutError _ _ _ _ => class_S3WaitTimeoutError
  | mk_DynamoDBWaitTimeoutError _ _ _ _ => class_DynamoDBWaitTimeoutError
  | mk_ClientError _ => class_ClientError
  | mk_WaiterError => class_WaiterError
  | mk_ValueError => class_ValueError
  | mk_JSONDecodeError => class_JSONDecodeError
  | mk_UnicodeDecodeError => class_UnicodeDecodeError
  | mk_other n => class_other n
  end.

(** [isinstance(e, c)], which is what an [except c] clause tests. *)
Definition isinstance (e : exn) (c : pyclass) : bool :=
  issubclass (class_of e) c.

(** [S3WaitTimeoutError.__init__] *)
Definition S3WaitTimeoutError (bucket key : string) (timeout : Q) : exn :=
  mk_S3WaitTimeoutError bucket key timeout
    [Text "Timed out after "; Seconds timeout; Text "s waiting for s3://";
     Text bucket; Text "/"; Text key].

(** [DynamoDBWaitTimeoutError.__init__] *)
Definition DynamoDBWaitTimeoutError (table_name : string)
    (key : option pydict) (timeout : Q)
    (message : option (list fragment)) : exn :=
  let msg :=
    match message with
    | Some message => message
    | None =>
        [Text "Timed out after "; Seconds timeout;
         Text "s waiting for item "; KeyRepr key; Text " in table ";
         Text table_name]
    end in
  mk_DynamoDBWaitTimeoutError table_name key timeout msg.






End exceptions.
Export exceptions.

(** ** The outside world *)

(** What a call to the outside comes back with. *)
Inductive reply (A : Type) :=
| Returns (a : A)
| Raises (e : exn).
Arguments Returns {A} a.
Arguments Raises {A} e.

(** The response of [Table.get_item], as far as the waiter reads it: the
    ["Item"] entry, which is absent when there is no such record. *)
Record GetItemOutput := { Item : option pydict }.

(** The response of [Table.scan(Select="COUNT")]: the ["Count"] entry. *)
Record ScanOutput := { Count : option Z }.

(** The [WaiterConfig] dict handed to a botocore waiter. *)
Record WaiterConfig := { Delay : Z; MaxAttempts : Z }.

Inductive request :=
| GetItem (table : string) (Key : pydict)
| Scan (table : string) (Select : string) (Limit : Z)
| GetObject (Bucket Key : string)
| HeadObject (Bucket Key : string)
| Wait (waiter : string) (Bucket Key : string) (cfg : WaiterConfig).

(** How the outside behaves during one run: what the n-th interaction with
    it answers, and how much time that interaction takes beyond what was
    asked for. *)
Record Outside := {
  latency : nat → Q;
  get_item_reply : nat → string → pydict → reply GetItemOutput;
  scan_reply : nat → string → reply ScanOutput;
  get_object_reply : nat → string → string → reply (list Byte.byte);
  head_object_reply : nat → string → string → reply pydict;
  wait_reply : nat → string → string → string → WaiterConfig → reply unit
}.

(** What has happened, in the order it happened. *)
Inductive event :=
| Called (req : request) (issued answered : Q)
| Slept (issued seconds : Q).

Record World := {
  now : Q;              (* the monotonic clock *)
  ticks : nat;          (* interactions with the outside so far *)
  trace : list event
}.

(** How a computation ends. *)
Inductive outcome (A : Type) :=
| Return (a : A)
| Raise (e : exn)
| Running.            (* the loop was cut off by the fuel *)
Arguments Return {A} a.
Arguments Raise {A} e.
Arguments Running {A}.

(** Computations: they read the outside, thread the world, and return, raise
    or are still running. *)
Definition M (A : Type) : Type := Outside → World → outcome A * World.

#[global] Instance M_ret : MRet M := λ A a _ w, (Return a, w).

#[global] Instance M_bind : MBind M := λ A B f m O w,
  match m O w with
  | (Return a, w') => f a O w'
  | (Raise e, w') => (Raise e, w')
  | (Running, w') => (Running, w')
  end.

Definition raise {A} (e : exn) : M A := λ _ w, (Raise e, w).

Definition out_of_fuel {A} : M A := λ _ w, (Running, w).

(** [try: body  except ...: handler]: [handler e] is [None] when no clause
    matches [e], which then goes on to the caller. *)
Definition try_except {A} (body : M A) (handler : exn → option (M A)) : M A :=
  λ O w,
    match body O w with
    | (Raise e, w') =>
        match handler e with
        | Some h => h O w'
        | None => (Raise e, w')
        end
    | r => r
    end.

(** A call to the store: the world answers by its script, the clock moves on
    by the time the call took. *)
Definition call {A} (req : request) (script : Outside → nat → reply A) : M A :=
  λ O w,
    let answered := (now w + latency O (ticks w))%Q in
    let w' := {| now := answered;
                 ticks := S (ticks w);
                 trace := trace w ++ [Called req (now w) answered] |} in
    match script O (ticks w) with
    | Returns a => (Return a, w')
    | Raises e => (Raise e, w')
    end.

Module time.

(** [time.monotonic()] *)
Definition monotonic : M Q := λ _ w, (Return (now w), w).

(** [time.sleep(seconds)]: at least [seconds] pass; a negative length is a
    [ValueError]. *)
Definition sleep (seconds : Q) : M unit := λ O w,
  if Qlt_le_dec seconds 0 then (Raise mk_ValueError, w)
  else
    (Return (),
     {| now := (now w + seconds + latency O (ticks w))%Q;
        ticks := S (ticks w);
        trace := trace w ++ [Slept (now w) seconds] |}).

End time.

(** [min(a, b)] and [math.ceil(x)] *)
Definition py_min (a b : Q) : Q := if Qlt_le_dec b a then b else a.

Module math.
Definition ceil (x : Q) : Z := Qceiling x.
End math.

(** ** Floats

    A Python [float] is an IEEE 754 binary64: 53 significant bits, exponents
    from -1022 on (below, the spacing of the subnormal numbers stays that of
    the smallest normal ones).  A duration is a finite float and no divisor
    of the package is less than 1, so that no result here is beyond the
    largest float: [nearest] is written without a largest exponent. *)

Module float.

Definition precision : Z := 53.
Definition emin : Z := -1022.

(** The exponent of a positive [x]: the [e] with [2^e <= x < 2^(e+1)]. *)
Definition ilog2 (x : Q) : Z :=
  if Qle_bool 1 x then Z.log2 (Qfloor x)
  else - Z.log2_up (Qceiling (/ x)).

(** The spacing of the floats around a positive [x]. *)
Definition ulp (x : Q) : Q :=
  (2 ^ (Z.max (ilog2 x) emin - (precision - 1)))%Q.

(** The integer nearest to [m]; of two that are equally near, the even
    one. *)
Definition round_half_even (m : Q) : Z :=
  let f := Qfloor m in
  match (m - inject_Z f ?= 1 # 2)%Q with
  | Lt => f
  | Gt => f + 1
  | Eq => if Z.even f then f else f + 1
  end.

Definition nearest_positive (x : Q) : Q :=
  (inject_Z (round_half_even (x / ulp x)) * ulp x)%Q.

(** The float nearest to [x], ties to even: what an operation on floats
    returns for the exact result [x]. *)
Definition nearest (x : Q) : Q :=
  match (x ?= 0)%Q with
  | Eq => 0%Q
  | Gt => nearest_positive x
  | Lt => (- nearest_positive (- x))%Q
  end.

(** [float(z)] of an [int] *)
Definition of_int (z : Z) : Q := nearest (inject_Z z).

(** The numbers that are values of floats. *)
Definition is_float (x : Q) : Prop := (nearest x == x)%Q.

End float.

(** ** aws_expect/dynamodb.py *)

Module DynamoDBItemExpectation.

(** The boto3 [Table] resource: the waiter reads its [name] and calls its
    [get_item] and [scan]. *)
Record Table := { name : string }.

Definition get_item (table : Table) (Key : pydict) : M GetItemOutput :=
  call (GetItem (name table) Key)
       (λ O n, get_item_reply O n (name table) Key).

Definition scan (table : Table) (Select : string) (Limit : Z) : M ScanOutput :=
  call (Scan (name table) Select Limit) (λ O n, scan_reply O n (name table)).

Record t := { _table : Table; _table_name : string }.

Definition __init__ (table : Table) : t :=
  {| _table := table; _table_name := name table |}.

(** Clamp poll_interval to a minimum of 1 and round up. *)
Definition _compute_delay (poll_interval : Q) : Z :=
  Z.max 1 (math.ceil poll_interval).

(** Check that [item] contains all expected [entries] (subset match). *)
Definition _matches_entries (item entries : pydict) : bool :=
  all (λ '(k, v), py_eq (dict_get item k) v) (items entries).

(** The [while True] of [to_exist]; each turn takes one unit of fuel. *)
Fixpoint to_exist_loop (fuel : nat) (self : t) (key : pydict) (timeout : Q)
    (entries : option pydict) (delay : Z) (deadline : Q) : M pydict :=
  match fuel with
  | O => out_of_fuel
  | S fuel =>
      response ← get_item (_table self) key;
      let item := Item response in
      let otherwise : M pydict :=
        now ← time.monotonic;
        let remaining := (deadline - now)%Q in
        if Qle_bool remaining 0 then
          raise (DynamoDBWaitTimeoutError (_table_name self) (Some key)
                   timeout None)
        else
          time.sleep (py_min (inject_Z delay) remaining);;
          to_exist_loop fuel self key timeout entries delay deadline in
      match item with
      | Some item =>
          if match entries with
             | None => true
             | Some entries => _matches_entries item entries
             end
          then mret item
          else otherwise
      | None => otherwise
      end
  end.

(** Poll [get_item] until the item exists and optionally matches [entries]. *)
Definition to_exist (fuel : nat) (self : t) (key : pydict) (timeout : Q)
    (poll_interval : Q) (entries : option pydict) : M pydict :=
  let delay := _compute_delay poll_interval in
  now ← time.monotonic;
  let deadline := (now + timeout)%Q in
  to_exist_loop fuel self key timeout entries delay deadline.

Definition to_be_empty_message (self : t) (timeout : Q) : list fragment :=
  [Text "Timed out after "; Seconds timeout; Text "s waiting for table ";
   Text (_table_name self); Text " to be empty"].

Fixpoint to_be_empty_loop (fuel : nat) (self : t) (timeout : Q) (delay : Z)
    (deadline : Q) : M unit :=
  match fuel with
  | O => out_of_fuel
  | S fuel =>
      response ← scan (_table self) "COUNT" 1;
      if (default 0 (Count response) =? 0)%Z then mret ()
      else
        now ← time.monotonic;
        let remaining := (deadline - now)%Q in
        if Qle_bool remaining 0 then
          raise (DynamoDBWaitTimeoutError (_table_name self) None timeout
                   (Some (to_be_empty_message self timeout)))
        else
          time.sleep (py_min (inject_Z delay) remaining);;
          to_be_empty_loop fuel self timeout delay deadline
  end.

(** Poll [scan] until the table contains no items. *)
Definition to_be_empty (fuel : nat) (self : t) (timeout poll_interval : Q)
    : M unit :=
  let delay := _compute_delay poll_interval in
  now ← time.monotonic;
  let deadline := (now + timeout)%Q in
  to_be_empty_loop fuel self timeout delay deadline.

Definition to_not_be_empty_message (self : t) (timeout : Q) : list fragment :=
  [Text "Timed out after "; Seconds timeout; Text "s waiting for table ";
   Text (_table_name self); Text " to not be empty"].

Fixpoint to_not_be_empty_loop (fuel : nat) (self : t) (timeout : Q)
    (delay : Z) (deadline : Q) : M unit :=
  match fuel with
  | O => out_of_fuel
  | S fuel =>
      response ← scan (_table self) "COUNT" 1;
      if (default 0 (Count response) >? 0)%Z then mret ()
      else
        now ← time.monotonic;
        let remaining := (deadline - now)%Q in
        if Qle_bool remaining 0 then
          raise (DynamoDBWaitTimeoutError (_table_name self) None timeout
                   (Some (to_not_be_empty_message self timeout)))
        else
          time.sleep (py_min (inject_Z delay) remaining);;
          to_not_be_empty_loop fuel self timeout delay deadline
  end.

(** Poll [scan] until the table contains at least one item. *)
Definition to_not_be_empty (fuel : nat) (self : t) (timeout poll_interval : Q)
    : M unit :=
  let delay := _compute_delay poll_interval in
  now ← time.monotonic;
  let deadline := (now + timeout)%Q in
  to_not_be_empty_loop fuel self timeout delay deadline.

Fixpoint to_not_exist_loop (fuel : nat) (self : t) (key : pydict)
    (timeout : Q) (delay : Z) (deadline : Q) : M unit :=
  match fuel with
  | O => out_of_fuel
  | S fuel =>
      response ← get_item (_table self) key;
      let item := Item response in
      match item with
      | None => mret ()
      | Some _ =>
          now ← time.monotonic;
          let remaining := (deadline - now)%Q in
          if Qle_bool remaining 0 then
            raise (DynamoDBWaitTimeoutError (_table_name self) (Some key)
                     timeout None)
          else
            time.sleep (py_min (inject_Z delay) remaining);;
            to_not_exist_loop fuel self key timeout delay deadline
      end
  end.

(** Poll [get_item] until the item no longer exists. *)
Definition to_not_exist (fuel : nat) (self : t) (key : pydict)
    (timeout poll_interval : Q) : M unit :=
  let delay := _compute_delay poll_interval in
  now ← time.monotonic;
  let deadline := (now + timeout)%Q in
  to_not_exist_loop fuel self key timeout delay deadline.

End DynamoDBItemExpectation.

(** ** aws_expect/s3.py *)

(** [a / b] of a float and an [int]: the [int] is converted to a float, and
    the quotient of the two floats is the float nearest to the exact
    quotient.  (Of two [int]s the language rounds the exact quotient, which
    is the same float as long as [b] is a float itself.) *)
Definition truediv (a : Q) (b : Z) : reply Q :=
  let divisor := float.of_int b in
  if Qeq_bool divisor 0 then Raises (mk_other "ZeroDivisionError")
  else Returns (float.nearest (a / divisor)).

(** Run a pure step that may raise. *)
Definition lift {A} (r : reply A) : M A :=
  match r with
  | Returns a => mret a
  | Raises e => raise e
  end.

Module S3ObjectExpectation.

(** The boto3 [Object] resource: its bucket, its key; its [meta.client] is
    the object store of the outside world. *)
Record Object := { bucket_name : string; key : string }.

(** [client.get_object(Bucket=..., Key=...)] followed by
    [response["Body"].read()]: the bytes of the object. *)
Definition get_object (Bucket Key : string) : M (list Byte.byte) :=
  call (GetObject Bucket Key) (λ O n, get_object_reply O n Bucket Key).

Definition head_object (Bucket Key : string) : M pydict :=
  call (HeadObject Bucket Key) (λ O n, head_object_reply O n Bucket Key).

(** [client.get_waiter(waiter).wait(Bucket=..., Key=..., WaiterConfig=...)] *)
Definition wait (waiter Bucket Key : string) (cfg : WaiterConfig) : M unit :=
  call (Wait waiter Bucket Key cfg)
       (λ O n, wait_reply O n waiter Bucket Key cfg).

Record t := { _obj : Object; _bucket : string; _key : string }.

Definition __init__ (s3_object : Object) : t :=
  {| _obj := s3_object;
     _bucket := bucket_name s3_object;
     _key := key s3_object |}.

(** [err.response["Error"]["Code"]] of a [ClientError] *)
Definition response_Error_Code (err : exn) : string :=
  match err with
  | mk_ClientError code => code
  | _ => ""
  end.

(** [x not in (a, b)] on strings *)
Definition not_in (x : string) (choices : list string) : bool :=
  negb (existsb (String.eqb x) choices).

(** Convert timeout/poll_interval into a botocore WaiterConfig dict. *)
Definition _build_waiter_config (timeout poll_interval : Q)
    : reply WaiterConfig :=
  let delay := Z.max 1 (math.ceil poll_interval) in
  match truediv timeout delay with
  | Raises e => Raises e
  | Returns quotient =>
      let max_attempts := Z.max 1 (math.ceil quotient) in
      Returns {| Delay := delay; MaxAttempts := max_attempts |}
  end.

(** Check that [item] contains all expected [entries] (subset match). *)
Definition _matches_entries (item entries : pydict) : bool :=
  all (λ '(k, v), py_eq (dict_get item k) v) (items entries).

Section with_json.

(** [json.loads] on bytes: the parsed value, or the exception it raises
    ([JSONDecodeError], [UnicodeDecodeError], ...). *)
Variable json_loads : list Byte.byte → reply pyval.

(** The two [except] clauses of the polling loop, tried in order: a
    [ClientError] is raised again unless its code says the object is not
    there; a body that does not decode or parse is passed over. *)
Definition _poll_for_entries_except (err : exn)
    : option (M (option pydict)) :=
  if isinstance err class_ClientError then
    Some (if not_in (response_Error_Code err) ["NoSuchKey"; "404"]
          then raise err
          else mret None)
  else if isinstance err class_JSONDecodeError
          || isinstance err class_UnicodeDecodeError then
    Some (mret None)
  else None.

(** The [try] statement of the polling loop: [Some body] when the function
    returns [body] from inside it, [None] when control falls out of it. *)
Definition _poll_for_entries_try (self : t) (entries : pydict)
    : M (option pydict) :=
  try_except
    (response ← get_object (_bucket self) (_key self);
     body ← lift (json_loads response);
     match body with
     | VDict body =>
         if _matches_entries body entries then mret (Some body)
         else mret None
     | _ => mret None
     end)
    _poll_for_entries_except.

Fixpoint _poll_for_entries_loop (fuel : nat) (self : t) (timeout : Q)
    (entries : pydict) (delay : Z) (deadline : Q) : M pydict :=
  match fuel with
  | O => out_of_fuel
  | S fuel =>
      returned ← _poll_for_entries_try self entries;
      match returned with
      | Some body => mret body
      | None =>
          now ← time.monotonic;
          let remaining := (deadline - now)%Q in
          if Qle_bool remaining 0 then
            raise (S3WaitTimeoutError (_bucket self) (_key self) timeout)
          else
            time.sleep (py_min (inject_Z delay) remaining);;
            _poll_for_entries_loop fuel self timeout entries delay deadline
      end
  end.

(** Poll [get_object], parse JSON, and wait for a subset match. *)
Definition _poll_for_entries (fuel : nat) (self : t)
    (timeout poll_interval : Q) (entries : pydict) : M pydict :=
  let delay := Z.max 1 (math.ceil poll_interval) in
  now ← time.monotonic;
  let deadline := (now + timeout)%Q in
  _poll_for_entries_loop fuel self timeout entries delay deadline.

(** [except WaiterError as exc: raise S3WaitTimeoutError(...) from exc] *)
Definition except_WaiterError (self : t) (timeout : Q) (exc : exn)
    : option (M unit) :=
  if isinstance exc class_WaiterError then
    Some (raise (S3WaitTimeoutError (_bucket self) (_key self) timeout))
  else None.

(** Wait for the S3 object to exist and optionally match [entries]. *)
Definition to_exist (fuel : nat) (self : t) (timeout poll_interval : Q)
    (entries : option pydict) : M pydict :=
  match entries with
  | Some entries => _poll_for_entries fuel self timeout poll_interval entries
  | None =>
      waiter_config ← lift (_build_waiter_config timeout poll_interval);
      try_except
        (wait "object_exists" (_bucket self) (_key self) waiter_config)
        (except_WaiterError self timeout);;
      head_object (_bucket self) (_key self)
  end.

End with_json.

(** Wait for the S3 object to not exist using the native waiter. *)
Definition to_not_exist (self : t) (timeout poll_interval : Q) : M unit :=
  waiter_config ← lift (_build_waiter_config timeout poll_interval);
  try_except
    (wait "object_not_exists" (_bucket self) (_key self) waiter_config)
    (except_WaiterError self timeout);;
  mret ().

End S3ObjectExpectation.

(** ** aws_expect/expect.py *)

Definition expect_s3 (s3_object : S3ObjectExpectation.Object)
    : S3ObjectExpectation.t :=
  S3ObjectExpectation.__init__ s3_object.

Definition expect_dynamodb (table : DynamoDBItemExpectation.Table)
    : DynamoDBItemExpectation.t :=
  DynamoDBItemExpectation.__init__ table.

(** ** The loop shape the five polling waits share

    Every [while True] above is: poll and evaluate; return on success;
    otherwise read the clock, give up when nothing remains, else sleep and
    start over.  [poll_loop] is that shape with the poll left open; the
    waits are shown below to be instances of it. *)

Fixpoint poll_loop {A} (fuel : nat) (attempt : M (option A))
    (timed_out : exn) (delay : Z) (deadline : Q) : M A :=
  match fuel with
  | O => out_of_fuel
  | S fuel =>
      found ← attempt;
      match found with
      | Some a => mret a
      | None =>
          now ← time.monotonic;
          let remaining := (deadline - now)%Q in
          if Qle_bool remaining 0 then raise timed_out
          else
            time.sleep (py_min (inject_Z delay) remaining);;
            poll_loop fuel attempt timed_out delay deadline
      end
  end.

(** The poll-and-evaluate step of each wait: [Some] the result when the wait
    is over, [None] when it has to go on. *)
Definition to_exist_attempt (self : DynamoDBItemExpectation.t)
    (key : pydict) (entries : option pydict) : M (option pydict) :=
  response ← DynamoDBItemExpectation.get_item
               (DynamoDBItemExpectation._table self) key;
  match Item response with
  | Some item =>
      if match entries with
         | None => true
         | Some entries =>
             DynamoDBItemExpectation._matches_entries item entries
         end
      then mret (Some item)
      else mret None
  | None => mret None
  end.

Definition to_be_empty_attempt (self : DynamoDBItemExpectation.t)
    : M (option unit) :=
  response ← DynamoDBItemExpectation.scan
               (DynamoDBItemExpectation._table self) "COUNT" 1;
  if (default 0 (Count response) =? 0)%Z then mret (Some ()) else mret None.

Definition to_not_be_empty_attempt (self : DynamoDBItemExpectation.t)
    : M (option unit) :=
  response ← DynamoDBItemExpectation.scan
               (DynamoDBItemExpectation._table self) "COUNT" 1;
  if (default 0 (Count response) >? 0)%Z then mret (Some ()) else mret None.

Definition to_not_exist_attempt (self : DynamoDBItemExpectation.t)
    (key : pydict) : M (option unit) :=
  response ← DynamoDBItemExpectation.get_item
               (DynamoDBItemExpectation._table self) key;
  match Item response with
  | None => mret (Some ())
  | Some _ => mret None
  end.

(** The world right after one call to the store. *)
Definition after_call (O : Outside) (w : World) (req : request) : World :=
  {| now := (now w + latency O (ticks w))%Q;
     ticks := S (ticks w);
     trace := trace w ++ [Called req (now w) (now w + latency O (ticks w))%Q] |}.

(** A step that is one call to the store and nothing else. *)
Definition single_call {A} (step : M A) (req : request) : Prop :=
  ∀ O w, (step O w).2 = after_call O w req ∧ (step O w).1 ≠ Running.

(** The outside never takes a negative time. *)
Definition punctual (O : Outside) : Prop := ∀ n, (0 <= latency O n)%Q.

(** The world right after a sleep of [seconds]. *)
Definition after_sleep (O : Outside) (w : World) (seconds : Q) : World :=
  {| now := (now w + seconds + latency O (ticks w))%Q;
     ticks := S (ticks w);
     trace := trace w ++ [Slept (now w) seconds] |}.





(** How a polling loop ends, given what its last poll found. *)
Definition verdict {A} (found : outcome (option A)) (timed_out : exn)
    : outcome A :=
  match found with
  | Return (Some a) => Return a
  | Return None => Raise timed_out
  | Raise e => Raise e
  | Running => Running
  end.





(** A run that has ended has ended by the verdict on some poll. *)
Definition ends_by_verdict {A} (run : M A) (attempt : M (option A))
    (timed_out : exn) : Prop :=
  ∀ O w, (run O w).1 ≠ Running →
    ∃ w0, (run O w).1 = verdict (attempt O w0).1 timed_out.

(** The exception, if any, raised inside the [try] of a poll issued in
    world [w]: by the retrieval, or by the parser on what was retrieved. *)
Definition try_raises (json_loads : list Byte.byte → reply pyval)
    (self : S3ObjectExpectation.t) (O : Outside) (w : World) (e : exn)
    : Prop :=
  let fetched := get_object_reply O (ticks w)
                   (S3ObjectExpectation._bucket self)
                   (S3ObjectExpectation._key self) in
  fetched = Raises e
  ∨ ∃ raw, fetched = Returns raw ∧ json_loads raw = Raises e.


(** ** Statements of the specification, to compare the code with *)

(** "Returns true iff for every key [k] in [expected], [candidate] contains
    [k] and [candidate[k]] equals [expected[k]] under deep structural
    equality." *)
Definition subset_match_as_stated (matches : pydict → pydict → bool)
    (candidate expected : pydict) : Prop :=
  matches candidate expected = true ↔
  ∀ k v, expected !! k = Some v → candidate !! k = Some v.

(** The errors the content-matching loop is said to absorb: a "not found"
    store error, by its code, and a failure to decode or parse the body. *)
Inductive absorbed_as_stated : exn → Prop :=
| absorbed_NoSuchKey : absorbed_as_stated (mk_ClientError "NoSuchKey")
| absorbed_404 : absorbed_as_stated (mk_ClientError "404")
| absorbed_JSONDecodeError : absorbed_as_stated mk_JSONDecodeError
| absorbed_UnicodeDecodeError : absorbed_as_stated mk_UnicodeDecodeError.

(** "The delay equals [max(1, ceil(poll_interval))]: it is exactly 1
    whenever [poll_interval <= 0], and is the ceiling of [poll_interval]
    whenever it has a fractional part." *)
Definition has_fractional_part (x : Q) : Prop :=
  ¬ (inject_Z (Qfloor x) == x)%Q.

Definition effective_delay_as_stated (delay_of : Q → Z) (poll_interval : Q)
    : Prop :=
  delay_of poll_interval = Z.max 1 (Qceiling poll_interval)
  ∧ ((poll_interval <= 0)%Q → delay_of poll_interval = 1)
  ∧ (has_fractional_part poll_interval →
     delay_of poll_interval = Qceiling poll_interval).



(** ** Worlds to run the waits in *)

(** The start of a run: clock at zero, nothing has happened. *)
Definition start : World := {| now := 0; ticks := 0; trace := [] |}.

(** An outside where nothing is stored and nothing takes time: no item
    under any key, a count of zero, no object, and native waits that give
    up. *)
Definition vacant : Outside :=
  {| latency := λ _, 0%Q;
     get_item_reply := λ _ _ _, Returns {| Item := None |};
     scan_reply := λ _ _, Returns {| Count := Some 0 |};
     get_object_reply := λ _ _ _, Raises (mk_ClientError "NoSuchKey");
     head_object_reply := λ _ _ _, Raises (mk_ClientError "404");
     wait_reply := λ _ _ _ _ _, Raises mk_WaiterError |}.

(** The same, with [item] found under every key. *)
Definition holding (item : pydict) : Outside :=
  {| latency := latency vacant;
     get_item_reply := λ _ _ _, Returns {| Item := Some item |};
     scan_reply := λ _ _, Returns {| Count := Some 1 |};
     get_object_reply := get_object_reply vacant;
     head_object_reply := head_object_reply vacant;
     wait_reply := wait_reply vacant |}.




(** A parser for which nothing is JSON. *)
Definition unparsable (raw : list Byte.byte) : reply pyval :=
  Raises mk_JSONDecodeError.

Definition users : DynamoDBItemExpectation.t :=
  expect_dynamodb {| DynamoDBItemExpectation.name := "users" |}.

Definition report : S3ObjectExpectation.t :=
  expect_s3 {| S3ObjectExpectation.bucket_name := "reports";
               S3ObjectExpectation.key := "daily.json" |}.

Definition alice : pydict :=
  {[ "pk" := VStr "user-1"; "name" := VStr "Alice" ]}.

Definition user_1 : pydict := {[ "pk" := VStr "user-1" ]}.

(** ** Measures of a run, and what the waits keep *)

(** What a run that started in [w] and ended in [w'] added to the trace. *)
Definition new_events (w w' : World) : list event :=
  drop (length (trace w)) (trace w').

(** The lengths of the sleeps of a stretch of the trace, their sum, and the
    number of calls to the store. *)
Fixpoint slept (evs : list event) : list Q :=
  match evs with
  | [] => []
  | Slept _ seconds :: rest => seconds :: slept rest
  | Called _ _ _ :: rest => slept rest
  end.

Definition total_slept (evs : list event) : Q := foldr Qplus 0%Q (slept evs).

Fixpoint asked (evs : list event) : list request :=
  match evs with
  | [] => []
  | Called req _ _ :: rest => req :: asked rest
  | Slept _ _ :: rest => asked rest
  end.

Definition polls (evs : list event) : nat := length (asked evs).

(** An outside where nothing takes longer than it has to: every call to the
    store is answered at once, and every sleep ends exactly on time. *)
Definition instant (O : Outside) : Prop := ∀ n, (latency O n == 0)%Q.


(** A wait calls the store at most [n + 1] times when [n] delays cover its
    timeout, however much fuel it is given. *)
Definition polls_within {A} (run : nat → M A) (delay : Z) (timeout : Q)
    : Prop :=
  ∀ n fuel O w, punctual O →
    (timeout <= inject_Z (Z.of_nat n) * inject_Z delay)%Q →
    (polls (new_events w (run fuel O w).2) <= S n)%nat.

(** Every sleep of a wait but the last lasts exactly the delay. *)
Definition steady_cadence {A} (run : nat → M A) (delay : Z) : Prop :=
  ∀ fuel O w, punctual O →
    ∀ seconds,
      seconds ∈ removelast (slept (new_events w (run fuel O w).2)) →
      seconds = inject_Z delay.


(** A property of all five polling waits of the two waiters. *)
Definition every_polling_wait
    (json_loads : list Byte.byte → reply pyval)
    (waiter : DynamoDBItemExpectation.t) (s3waiter : S3ObjectExpectation.t)
    (key : pydict) (timeout poll_interval : Q)
    (entries : option pydict) (expected : pydict)
    (P : ∀ A, (nat → M A) → Prop) : Prop :=
  P pydict (λ fuel, DynamoDBItemExpectation.to_exist fuel waiter key timeout
                      poll_interval entries)
  ∧ P unit (λ fuel, DynamoDBItemExpectation.to_not_exist fuel waiter key
                      timeout poll_interval)
  ∧ P unit (λ fuel, DynamoDBItemExpectation.to_be_empty fuel waiter timeout
                      poll_interval)
  ∧ P unit (λ fuel, DynamoDBItemExpectation.to_not_be_empty fuel waiter
                      timeout poll_interval)
  ∧ P pydict (λ fuel, S3ObjectExpectation._poll_for_entries json_loads fuel
                        s3waiter timeout poll_interval expected).

(** An object store that serves [raw] for every object, and a parser that
    reads [v] out of everything. *)
Definition serving (raw : list Byte.byte) : Outside :=
  {| latency := latency vacant;
     get_item_reply := get_item_reply vacant;
     scan_reply := scan_reply vacant;
     get_object_reply := λ _ _ _, Returns raw;
     head_object_reply := λ _ _ _, Returns ∅;
     wait_reply := λ _ _ _ _ _, Returns () |}.

Definition parsed_as (v : pyval) (raw : list Byte.byte) : reply pyval :=
  Returns v.

(** A store that has lost the table: every call to it is refused. *)
Definition tableless : Outside :=
  {| latency := latency vacant;
     get_item_reply :=
       λ _ _ _, Raises (mk_ClientError "ResourceNotFoundException");
     scan_reply := λ _ _, Raises (mk_ClientError "ResourceNotFoundException");
     get_object_reply := get_object_reply vacant;
     head_object_reply := head_object_reply vacant;
     wait_reply := wait_reply vacant |}.

(** * Proofs *)

(** ** Floats *)

#[local] Instance Qfloor_proper : Proper (Qeq ==> eq) Qfloor := Qfloor_comp.

#[local] Instance Qceiling_proper : Proper (Qeq ==> eq) Qceiling :=
  Qceiling_comp.

Lemma round_half_even_floor m :
  float.round_half_even m = Qfloor m ∨ float.round_half_even m = Qfloor m + 1.
Proof.
  unfold float.round_half_even. cbv zeta.
  destruct (_ ?= _)%Q; [destruct (Z.even _)| |]; auto.
Qed.

Lemma round_half_even_near m :
  (m - (1 # 2) <= inject_Z (float.round_half_even m) <= m + (1 # 2))%Q.
Proof.
  pose proof (Qfloor_le m) as Hlo. pose proof (Qlt_floor m) as Hhi.
  rewrite inject_Z_plus in Hhi. change (inject_Z 1) with 1%Q in Hhi.
  unfold float.round_half_even. cbv zeta.
  destruct (Qcompare_spec (m - inject_Z (Qfloor m)) (1 # 2)) as [Hc|Hc|Hc];
    [destruct (Z.even _)| |];
    rewrite ?inject_Z_plus; change (inject_Z 1) with 1%Q; lra.
Qed.

Lemma round_half_even_int z : float.round_half_even (inject_Z z) = z.
Proof.
  unfold float.round_half_even. cbv zeta. rewrite Qfloor_Z.
  destruct (Qcompare_spec (inject_Z z - inject_Z z) (1 # 2)) as [Hc|Hc|Hc];
    [exfalso|done|exfalso]; revert Hc; generalize (inject_Z z); intros q Hc;
    lra.
Qed.

Lemma round_half_even_mono x y :
  (x <= y)%Q → float.round_half_even x <= float.round_half_even y.
Proof.
  intros Hxy. pose proof (Qfloor_resp_le _ _ Hxy) as Hf.
  destruct (Z.eq_dec (Qfloor x) (Qfloor y)) as [Heq|Hne].
  - unfold float.round_half_even. cbv zeta. rewrite Heq.
    destruct (Qcompare_spec (x - inject_Z (Qfloor y)) (1 # 2)) as [Hx|Hx|Hx];
      destruct (Qcompare_spec (y - inject_Z (Qfloor y)) (1 # 2))
        as [Hy|Hy|Hy];
      try destruct (Z.even _); try lia; exfalso; lra.
  - destruct (round_half_even_floor x) as [->| ->];
      destruct (round_half_even_floor y) as [->| ->]; lia.
Qed.

#[local] Instance round_half_even_comp :
  Proper (Qeq ==> eq) float.round_half_even.
Proof.
  intros x y Hxy. unfold float.round_half_even. cbv zeta.
  rewrite (Qfloor_comp x y Hxy).
  assert (Hc : (x - inject_Z (Qfloor y) ?= 1 # 2)%Q
               = (y - inject_Z (Qfloor y) ?= 1 # 2)%Q).
  { apply Qcompare_comp; [by rewrite Hxy|done]. }
  by rewrite Hc.
Qed.

Lemma pow2_pos e : (0 < 2 ^ e)%Q.
Proof. by apply Qpower_0_lt. Qed.

Lemma pow2_Z k : 0 <= k → (inject_Z (2 ^ k) == 2 ^ k)%Q.
Proof. intros Hk. by rewrite Zpower_Qpower. Qed.

Lemma pow2_split a b : (2 ^ a * 2 ^ b == 2 ^ (a + b))%Q.
Proof. by rewrite Qpower_plus. Qed.

(** The exponent of a number from 1 on. *)
Lemma ilog2_from_1 x :
  (1 <= x)%Q →
  0 <= float.ilog2 x
  ∧ (2 ^ float.ilog2 x <= x)%Q ∧ (x < 2 ^ (float.ilog2 x + 1))%Q.
Proof.
  intros Hx. unfold float.ilog2.
  assert (Hb : Qle_bool 1 x = true) by by apply Qle_bool_iff.
  rewrite Hb.
  assert (Hf : 1 <= Qfloor x).
  { apply Qfloor_resp_le in Hx. by change (Qfloor 1) with 1 in Hx. }
  destruct (Z.log2_spec (Qfloor x)) as [Hlo Hhi]; [lia|].
  pose proof (Z.log2_nonneg (Qfloor x)) as He.
  split; [done|]. split.
  - rewrite <- pow2_Z by done.
    eapply Qle_trans; [|apply Qfloor_le]. by rewrite <- Zle_Qle.
  - rewrite <- pow2_Z by lia.
    eapply Qlt_le_trans; [apply Qlt_floor|].
    rewrite <- Zle_Qle. rewrite <- Z.add_1_r in Hhi. lia.
Qed.

Lemma ilog2_below x k :
  (1 <= x)%Q → 0 <= k → (x < 2 ^ k)%Q → float.ilog2 x < k.
Proof.
  intros Hx Hk Hlt. destruct (ilog2_from_1 x Hx) as (He & Hlo & _).
  apply (Qpower_lt_compat_l_inv 2); [|done].
  eapply Qle_lt_trans; [exact Hlo|exact Hlt].
Qed.

Lemma ilog2_upto_1 x : (x <= 1)%Q → float.ilog2 x <= 0.
Proof.
  intros Hx. unfold float.ilog2.
  destruct (Qle_bool 1 x) eqn:Hb.
  - apply Qle_bool_iff in Hb.
    assert (Heq : (x == 1)%Q) by lra. by rewrite Heq.
  - pose proof (Z.log2_up_nonneg (Qceiling (/ x))). lia.
Qed.

#[local] Instance ilog2_comp : Proper (Qeq ==> eq) float.ilog2.
Proof.
  intros x y Hxy. unfold float.ilog2.
  rewrite (Qleb_comp 1%Q 1%Q (Qeq_refl 1%Q) x y Hxy), (Qfloor_comp x y Hxy).
  assert (Hinv : (/ x == / y)%Q) by by rewrite Hxy.
  by rewrite (Qceiling_comp _ _ Hinv).
Qed.

#[local] Instance ulp_comp : Proper (Qeq ==> Qeq) float.ulp.
Proof. intros x y Hxy. unfold float.ulp. by rewrite (ilog2_comp x y Hxy). Qed.

#[local] Instance nearest_positive_comp :
  Proper (Qeq ==> Qeq) float.nearest_positive.
Proof.
  intros x y Hxy. unfold float.nearest_positive.
  pose proof (ulp_comp x y Hxy) as Hu.
  assert (Hm : (x / float.ulp x == y / float.ulp y)%Q) by by rewrite Hxy.
  by rewrite (round_half_even_comp _ _ Hm), Hu.
Qed.

#[local] Instance nearest_comp : Proper (Qeq ==> Qeq) float.nearest.
Proof.
  intros x y Hxy. unfold float.nearest.
  rewrite (Qcompare_comp x y Hxy 0%Q 0%Q (Qeq_refl 0%Q)).
  destruct (y ?= 0)%Q; [done| |].
  - assert (Hopp : (- x == - y)%Q) by by rewrite Hxy.
    by rewrite (nearest_positive_comp _ _ Hopp).
  - by rewrite (nearest_positive_comp _ _ Hxy).
Qed.

Lemma ulp_pos x : (0 < float.ulp x)%Q.
Proof. apply pow2_pos. Qed.

Lemma nearest_of_positive x :
  (0 < x)%Q → float.nearest x = float.nearest_positive x.
Proof.
  intros Hx. unfold float.nearest.
  by destruct (Qcompare_spec x 0) as [Hc|Hc|Hc]; [lra|lra|].
Qed.

Lemma nearest_positive_nonneg x :
  (0 <= x)%Q → (0 <= float.nearest_positive x)%Q.
Proof.
  intros Hx. unfold float.nearest_positive.
  pose proof (ulp_pos x) as Hu.
  apply Qmult_le_0_compat; [|lra].
  change 0%Q with (inject_Z 0). rewrite <- Zle_Qle.
  rewrite <- (round_half_even_int 0) at 1.
  apply round_half_even_mono. change (inject_Z 0) with 0%Q.
  apply Qle_shift_div_l; lra.
Qed.

Lemma nearest_nonneg x : (0 <= x)%Q → (0 <= float.nearest x)%Q.
Proof.
  intros Hx. unfold float.nearest.
  destruct (Qcompare_spec x 0) as [Hc|Hc|Hc]; [lra|lra|].
  by apply nearest_positive_nonneg.
Qed.

Lemma nearest_nonpos x : (x <= 0)%Q → (float.nearest x <= 0)%Q.
Proof.
  intros Hx. unfold float.nearest.
  destruct (Qcompare_spec x 0) as [Hc|Hc|Hc]; [lra| |lra].
  assert (H : (0 <= float.nearest_positive (- x))%Q).
  { apply nearest_positive_nonneg. lra. }
  lra.
Qed.

(** The spacing around [x], when it is a fraction of one. *)
Lemma ulp_fraction x k :
  0 <= k → Z.max (float.ilog2 x) float.emin = 52 - k →
  (float.ulp x == / inject_Z (2 ^ k))%Q
  ∧ ∀ y, (y / float.ulp x == y * inject_Z (2 ^ k))%Q.
Proof.
  intros Hk He.
  assert (Hu : (float.ulp x == / inject_Z (2 ^ k))%Q).
  { unfold float.ulp, float.precision. rewrite He, pow2_Z by done.
    replace (52 - k - (53 - 1)) with (- k) by lia. apply Qpower_opp. }
  split; [done|]. intros y. unfold Qdiv. by rewrite Hu, Qinv_involutive.
Qed.

Lemma pow2_Z_pos k : 0 <= k → (0 < inject_Z (2 ^ k))%Q.
Proof. intros Hk. rewrite pow2_Z by done. apply pow2_pos. Qed.

Lemma nearest_upto_1 x : (x <= 1)%Q → (float.nearest x <= 1)%Q.
Proof.
  intros Hx. destruct (Qlt_le_dec 0 x) as [Hpos|Hneg].
  - rewrite nearest_of_positive by done. unfold float.nearest_positive.
    pose proof (ilog2_upto_1 x Hx) as He.
    set (k := 52 - Z.max (float.ilog2 x) float.emin).
    assert (Hk : 0 <= k) by (unfold float.emin in k; lia).
    destruct (ulp_fraction x k) as [Hu Hdiv]; [done|lia|].
    pose proof (pow2_Z_pos k Hk) as Hp.
    rewrite Hdiv, Hu.
    assert (HR : float.round_half_even (x * inject_Z (2 ^ k)) <= 2 ^ k).
    { rewrite <- (round_half_even_int (2 ^ k)) at 2.
      apply round_half_even_mono.
      rewrite <- (Qmult_1_l (inject_Z (2 ^ k))) at 2.
      apply Qmult_le_compat_r; lra. }
    apply Qle_shift_div_r; [done|]. rewrite Qmult_1_l. by rewrite <- Zle_Qle.
  - pose proof (nearest_nonpos x Hneg). lra.
Qed.

(** Rounding does not cross a power of two. *)
Lemma nearest_from_pow2 k x :
  0 <= k → (2 ^ k <= x)%Q → (2 ^ k <= float.nearest x)%Q.
Proof.
  intros Hk Hx.
  assert (Hx1 : (1 <= x)%Q).
  { eapply Qle_trans; [|exact Hx]. by apply Qpower_1_le. }
  rewrite nearest_of_positive by lra.
  destruct (ilog2_from_1 x Hx1) as (He & Hlo & Hhi).
  assert (Hke : k <= float.ilog2 x).
  { assert (H : k < float.ilog2 x + 1); [|lia].
    apply (Qpower_lt_compat_l_inv 2); [|done].
    eapply Qle_lt_trans; [exact Hx|exact Hhi]. }
  unfold float.nearest_positive, float.ulp, float.precision.
  replace (Z.max (float.ilog2 x) float.emin) with (float.ilog2 x)
    by (unfold float.emin; lia).
  set (e := float.ilog2 x) in *. set (u := (2 ^ (e - (53 - 1)))%Q).
  assert (Hu : (0 < u)%Q) by apply pow2_pos.
  assert (Hsplit : (inject_Z (2 ^ 52) * u == 2 ^ e)%Q).
  { unfold u. rewrite pow2_Z, pow2_split by done.
    by replace (52 + (e - (53 - 1))) with e by lia. }
  assert (HR : 2 ^ 52 <= float.round_half_even (x / u)).
  { rewrite <- (round_half_even_int (2 ^ 52)) at 1.
    apply round_half_even_mono. apply Qle_shift_div_l; [done|].
    by rewrite Hsplit. }
  apply (Qle_trans _ (2 ^ e)); [by apply Qpower_le_compat_l|].
  rewrite <- Hsplit. apply Qmult_le_compat_r; [|lra]. by rewrite <- Zle_Qle.
Qed.

Lemma nearest_from_1 x : (1 <= x)%Q → (1 <= float.nearest x)%Q.
Proof. intros Hx. by apply (nearest_from_pow2 0). Qed.

(** Whole numbers up to 2^53 are floats. *)
Lemma nearest_int z :
  1 <= z <= 2 ^ 53 → (float.nearest (inject_Z z) == inject_Z z)%Q.
Proof.
  intros [Hlo Hhi]. destruct (Z.eq_dec z (2 ^ 53)) as [->|Hne].
  { vm_compute. reflexivity. }
  assert (Hx : (1 <= inject_Z z)%Q).
  { change 1%Q with (inject_Z 1). by rewrite <- Zle_Qle. }
  rewrite nearest_of_positive by lra.
  destruct (ilog2_from_1 _ Hx) as (He & _ & _).
  assert (He' : float.ilog2 (inject_Z z) < 53).
  { apply ilog2_below; [done|lia|]. rewrite <- pow2_Z by lia.
    rewrite <- Zlt_Qlt. lia. }
  set (k := 52 - float.ilog2 (inject_Z z)).
  destruct (ulp_fraction (inject_Z z) k) as [Hu Hdiv];
    [lia|unfold float.emin; lia|].
  unfold float.nearest_positive.
  rewrite Hdiv, Hu, <- inject_Z_mult, round_half_even_int, inject_Z_mult.
  pose proof (pow2_Z_pos k ltac:(lia)) as Hp.
  field. lra.
Qed.

Lemma Qceiling_unique x m :
  (inject_Z (m - 1) < x)%Q → (x <= inject_Z m)%Q → Qceiling x = m.
Proof.
  intros Hlo Hhi.
  pose proof (Qceiling_lt x) as Hlt. pose proof (Qle_ceiling x) as Hle.
  assert (H1 : (inject_Z (m - 1) < inject_Z (Qceiling x))%Q) by lra.
  assert (H2 : (inject_Z (Qceiling x - 1) < inject_Z m)%Q) by lra.
  rewrite <- Zlt_Qlt in H1, H2. lia.
Qed.

(** The quotient of a float below 2^53 by a whole number: rounding it to
    the nearest float does not change its ceiling, as long as that is more
    than 1. *)
Lemma nearest_quotient_above_1 t d :
  float.is_float t → (t < 2 ^ 53)%Q → 1 <= d → (1 < t / inject_Z d)%Q →
  Qceiling (float.nearest (t / inject_Z d)) = Qceiling (t / inject_Z d).
Proof.
  intros Hfloat Ht Hd Hq1.
  assert (HdQ : (1 <= inject_Z d)%Q).
  { change 1%Q with (inject_Z 1). by rewrite <- Zle_Qle. }
  set (q := (t / inject_Z d)%Q) in *.
  assert (Htq : (t == q * inject_Z d)%Q) by (unfold q; field; lra).
  assert (Hqt : (q <= t)%Q).
  { rewrite Htq. rewrite <- (Qmult_1_r q) at 1.
    apply Qmult_le_l; lra. }
  assert (Ht1 : (1 <= t)%Q) by lra.
  set (n := Qceiling q - 1).
  assert (Hnq : (inject_Z n < q)%Q) by apply Qceiling_lt.
  assert (Hqn : (q <= inject_Z (n + 1))%Q).
  { replace (n + 1) with (Qceiling q) by (unfold n; lia).
    apply Qle_ceiling. }
  assert (Hn : 1 <= n).
  { assert (H : (inject_Z 1 < inject_Z (n + 1))%Q).
    { change (inject_Z 1) with 1%Q. lra. }
    rewrite <- Zlt_Qlt in H. lia. }
  (* the exponents of the timeout and of the quotient *)
  destruct (ilog2_from_1 t Ht1) as (Het & _ & Htup).
  assert (Het' : float.ilog2 t < 53) by (apply ilog2_below; [done|lia|done]).
  destruct (ilog2_from_1 q ltac:(lra)) as (Heq & Hqlo & _).
  assert (Heq' : float.ilog2 q < 53).
  { apply ilog2_below; [lra|lia|lra]. }
  set (et := float.ilog2 t) in *. set (eq := float.ilog2 q) in *.
  set (T := 2 ^ (52 - et)). set (S := 2 ^ (52 - eq)).
  destruct (ulp_fraction t (52 - et)) as [Htu _];
    [lia|fold et; unfold float.emin; lia|].
  destruct (ulp_fraction q (52 - eq)) as [Hqu Hqdiv];
    [lia|fold eq; unfold float.emin; lia|].
  fold T in Htu. fold S in Hqu, Hqdiv.
  assert (HT : (0 < inject_Z T)%Q) by (apply pow2_Z_pos; lia).
  assert (HS : (0 < inject_Z S)%Q) by (apply pow2_Z_pos; lia).
  (* the timeout is a whole number of its spacings *)
  unfold float.is_float in Hfloat.
  rewrite nearest_of_positive in Hfloat by lra.
  unfold float.nearest_positive in Hfloat.
  set (Rt := float.round_half_even (t / float.ulp t)) in Hfloat.
  rewrite Htu in Hfloat.
  assert (HRt : (inject_Z Rt == t * inject_Z T)%Q).
  { rewrite <- Hfloat. field. lra. }
  (* so it is beyond [d * n] by one of them at least *)
  assert (Hgap : (1 <= (t - inject_Z d * inject_Z n) * inject_Z T)%Q).
  { assert (HK : (inject_Z (Rt - d * n * T)
                  == (t - inject_Z d * inject_Z n) * inject_Z T)%Q).
    { unfold Z.sub. rewrite inject_Z_plus, inject_Z_opp, !inject_Z_mult, HRt.
      ring. }
    rewrite <- HK. change 1%Q with (inject_Z 1). rewrite <- Zle_Qle.
    assert (Hpos : (inject_Z 0 < inject_Z (Rt - d * n * T))%Q).
    { rewrite HK. change (inject_Z 0) with 0%Q.
      apply Qmult_lt_0_compat; [|done]. rewrite Htq.
      assert (H : (0 < (q - inject_Z n) * inject_Z d)%Q)
        by (apply Qmult_lt_0_compat; lra).
      lra. }
    rewrite <- Zlt_Qlt in Hpos. lia. }
  (* the spacing of the quotient is less than twice that gap over [d] *)
  assert (Hspacing : (inject_Z d * inject_Z T < 2 * inject_Z S)%Q).
  { assert (Ha : (2 ^ eq * inject_Z S == inject_Z (2 ^ 52))%Q).
    { unfold S. rewrite !pow2_Z, pow2_split by lia.
      by replace (eq + (52 - eq)) with 52 by lia. }
    assert (Hb : (2 ^ (et + 1) * inject_Z T == 2 * inject_Z (2 ^ 52))%Q).
    { unfold T. rewrite !pow2_Z, pow2_split by lia.
      replace (et + 1 + (52 - et)) with (1 + 52) by lia.
      by rewrite <- pow2_split. }
    assert (Hlt : (inject_Z d * 2 ^ eq < 2 ^ (et + 1))%Q).
    { eapply Qle_lt_trans; [|exact Htup]. rewrite Htq, Qmult_comm.
      apply Qmult_le_compat_r; lra. }
    assert (HP : (0 < inject_Z (2 ^ 52))%Q) by by apply pow2_Z_pos.
    apply (Qmult_lt_compat_r _ _ (inject_Z S * inject_Z T)) in Hlt;
      [|by apply Qmult_lt_0_compat].
    assert (H1 : (inject_Z d * 2 ^ eq * (inject_Z S * inject_Z T)
                  == inject_Z d * inject_Z T * inject_Z (2 ^ 52))%Q).
    { rewrite <- Ha. ring. }
    assert (H2 : (2 ^ (et + 1) * (inject_Z S * inject_Z T)
                  == 2 * inject_Z S * inject_Z (2 ^ 52))%Q).
    { transitivity (2 ^ (et + 1) * inject_Z T * inject_Z S)%Q; [ring|].
      rewrite Hb. ring. }
    rewrite H1, H2 in Hlt.
    by apply Qmult_lt_r in Hlt. }
  (* hence the quotient rounds to a float above [n] *)
  assert (Hhalf : (inject_Z (n * S) + (1 # 2) < q * inject_Z S)%Q).
  { rewrite inject_Z_mult.
    set (g := (t - inject_Z d * inject_Z n)%Q) in *.
    assert (Hg : (q - inject_Z n == g / inject_Z d)%Q).
    { unfold g. rewrite Htq. field. lra. }
    assert (Hgoal : (1 # 2 < (q - inject_Z n) * inject_Z S)%Q).
    { rewrite Hg. unfold Qdiv.
      rewrite <- Qmult_assoc, (Qmult_comm (/ _)), Qmult_assoc.
      apply Qlt_shift_div_l; [lra|].
      assert (Hg0 : (0 < g)%Q).
      { destruct (Qlt_le_dec 0 g) as [|Hle]; [done|].
        assert (H : (g * inject_Z T <= 0 * inject_Z T)%Q)
          by (apply Qmult_le_compat_r; lra).
        lra. }
      assert (H1 : (g * (inject_Z d * inject_Z T) < g * (2 * inject_Z S))%Q)
        by by apply Qmult_lt_l.
      assert (H2 : (1 * inject_Z d <= g * inject_Z T * inject_Z d)%Q)
        by (apply Qmult_le_compat_r; lra).
      lra. }
    lra. }
  assert (HR : n * S + 1 <= float.round_half_even (q * inject_Z S)
               <= (n + 1) * S).
  { split.
    - destruct (round_half_even_near (q * inject_Z S)) as [Hnear _].
      assert (H : (inject_Z (n * S) < inject_Z
                     (float.round_half_even (q * inject_Z S)))%Q) by lra.
      rewrite <- Zlt_Qlt in H. lia.
    - rewrite <- (round_half_even_int ((n + 1) * S)).
      apply round_half_even_mono. rewrite inject_Z_mult.
      apply Qmult_le_compat_r; lra. }
  rewrite nearest_of_positive by lra. unfold float.nearest_positive.
  rewrite Hqdiv, Hqu.
  set (R := float.round_half_even (q * inject_Z S)) in *.
  fold (Qdiv (inject_Z R) (inject_Z S)).
  replace (Qceiling q) with (n + 1) by (unfold n; lia).
  apply Qceiling_unique.
  - replace (n + 1 - 1) with n by lia. apply Qlt_shift_div_l; [done|].
    rewrite <- inject_Z_mult, <- Zlt_Qlt. lia.
  - apply Qle_shift_div_r; [done|].
    rewrite <- inject_Z_mult, <- Zle_Qle. lia.
Qed.

(** What [max(1, ceil(timeout / delay))] is, computed in floats. *)
Lemma nearest_quotient_ceiling t d :
  float.is_float t → (t < 2 ^ 53)%Q → 1 <= d →
  Z.max 1 (Qceiling (float.nearest (t / inject_Z d)))
  = Z.max 1 (Qceiling (t / inject_Z d)).
Proof.
  intros Hfloat Ht Hd.
  destruct (Qlt_le_dec 1 (t / inject_Z d)) as [Hq|Hq].
  - by rewrite nearest_quotient_above_1.
  - pose proof (nearest_upto_1 _ Hq) as Hn.
    apply Qceiling_resp_le in Hq, Hn.
    change (Qceiling 1) with 1 in Hq, Hn. lia.
Qed.

(** The division in [_build_waiter_config] never fails, and what it is
    there. *)
Lemma of_int_delay poll_interval :
  (1 <= float.of_int (Z.max 1 (math.ceil poll_interval)))%Q.
Proof.
  apply nearest_from_1. change 1%Q with (inject_Z 1).
  rewrite <- Zle_Qle. lia.
Qed.

Lemma truediv_by_delay timeout poll_interval :
  truediv timeout (Z.max 1 (math.ceil poll_interval))
  = Returns
      (float.nearest
         (timeout / float.of_int (Z.max 1 (math.ceil poll_interval)))).
Proof.
  unfold truediv. cbv zeta.
  pose proof (of_int_delay poll_interval) as Hd.
  destruct (Qeq_bool _ 0) eqn:Hz; [|done].
  apply Qeq_bool_iff in Hz. lra.
Qed.

Lemma build_waiter_config_run timeout poll_interval :
  S3ObjectExpectation._build_waiter_config timeout poll_interval
  = Returns
      {| Delay := Z.max 1 (math.ceil poll_interval);
         MaxAttempts :=
           Z.max 1
             (math.ceil
                (float.nearest
                   (timeout
                    / float.of_int (Z.max 1 (math.ceil poll_interval))))) |}.
Proof.
  unfold S3ObjectExpectation._build_waiter_config.
  by rewrite truediv_by_delay.
Qed.

(** Without a timeout there is one attempt. *)
Lemma max_attempts_no_timeout timeout poll_interval :
  (timeout <= 0)%Q →
  Z.max 1
    (math.ceil
       (float.nearest
          (timeout / float.of_int (Z.max 1 (math.ceil poll_interval)))))
  = 1.
Proof.
  intros Ht. pose proof (of_int_delay poll_interval) as Hd.
  set (divisor := float.of_int (Z.max 1 (math.ceil poll_interval))) in *.
  assert (Hq : (timeout / divisor <= 0)%Q).
  { apply Qle_shift_div_r; lra. }
  apply nearest_nonpos, Qceiling_resp_le in Hq.
  change (Qceiling 0) with 0 in Hq. unfold math.ceil. lia.
Qed.

(** Below 2^53 seconds the rounding of the quotient does not show in the
    number of attempts. *)
Lemma max_attempts_exact timeout poll_interval :
  float.is_float timeout → (timeout < 2 ^ 53)%Q →
  Z.max 1
    (math.ceil
       (float.nearest
          (timeout / float.of_int (Z.max 1 (math.ceil poll_interval)))))
  = Z.max 1
      (math.ceil (timeout / inject_Z (Z.max 1 (math.ceil poll_interval)))).
Proof.
  intros Hfloat Ht. unfold math.ceil.
  set (delay := Z.max 1 (Qceiling poll_interval)).
  destruct (Z.le_gt_cases delay (2 ^ 53)) as [Hle|Hgt].
  - assert (Hdelay : 1 <= delay <= 2 ^ 53) by (unfold delay in *; lia).
    assert (Hq : (timeout / float.of_int delay
                  == timeout / inject_Z delay)%Q).
    { unfold float.of_int. by rewrite (nearest_int delay Hdelay). }
    rewrite (Qceiling_comp _ _ (nearest_comp _ _ Hq)).
    apply nearest_quotient_ceiling; [done|done|lia].
  - (* a delay beyond the timeout: one attempt, rounded or not *)
    assert (Hd : (2 ^ 53 <= inject_Z delay)%Q).
    { rewrite <- pow2_Z by lia. rewrite <- Zle_Qle. lia. }
    assert (Hd' : (2 ^ 53 <= float.of_int delay)%Q)
      by (apply nearest_from_pow2; [lia|done]).
    pose proof (pow2_pos 53) as Hpos.
    revert Ht Hd Hd' Hpos. generalize (2 ^ 53)%Q (inject_Z delay)
      (float.of_int delay). intros bound d d' Ht Hd Hd' Hpos.
    assert (Hq : (timeout / d <= 1)%Q) by (apply Qle_shift_div_r; lra).
    assert (Hq' : (timeout / d' <= 1)%Q) by (apply Qle_shift_div_r; lra).
    apply nearest_upto_1 in Hq'. apply Qceiling_resp_le in Hq, Hq'.
    change (Qceiling 1) with 1 in Hq, Hq'. lia.
Qed.

(** ** Values *)

Lemma map_fold_andb {V} (g : string → V → bool) (m : gmap string V) :
  map_fold (λ k x acc, acc && g k x) true m = true ↔
  map_Forall (λ k x, g k x = true) m.
Proof.
  induction m as [|k x m Hk Hfold IH] using map_first_key_ind.
  - rewrite map_fold_empty. split; [intros _; apply map_Forall_empty|done].
  - rewrite map_fold_insert_first_key by done.
    rewrite map_Forall_insert by done.
    rewrite andb_true_iff, IH. tauto.
Qed.

Lemma pv_size_lookup (d : pydict) k v :
  d !! k = Some v → (pv_size v < pv_size (VDict d))%nat.
Proof.
  intros Hk. simpl.
  rewrite <- (insert_delete_id d k v Hk).
  rewrite (map_fold_insert_L (λ _ x acc, (pv_size x + acc)%nat)).
  - lia.
  - intros. lia.
  - apply lookup_delete_eq.
Qed.

Lemma pv_size_elem (l : list pyval) v :
  v ∈ l → (pv_size v < pv_size (VList l))%nat.
Proof.
  induction 1 as [|x y l ? IH]; simpl in *; lia.
Qed.

(** Induction on values, with the hypothesis for every element of a list
    and every value of a dict. *)
Lemma pyval_ind (P : pyval → Prop) :
  P VNone → (∀ b, P (VBool b)) → (∀ z, P (VInt z)) → (∀ f, P (VFloat f)) →
  (∀ s, P (VStr s)) →
  (∀ l, Forall P l → P (VList l)) →
  (∀ d : pydict, map_Forall (λ _, P) d → P (VDict d)) →
  ∀ v, P v.
Proof.
  intros HN HB HI HF HS HL HD v.
  cut (∀ n v, (pv_size v < n)%nat → P v).
  { intros H. apply (H (S (pv_size v))). lia. }
  clear v. intros n. induction n as [|n IH]; intros v Hv; [lia|].
  destruct v as [| | | | |l|d]; auto.
  - apply HL, Forall_forall. intros x Hx. apply IH.
    pose proof (pv_size_elem l x Hx). lia.
  - apply HD. intros k x Hk. apply IH.
    pose proof (pv_size_lookup d k x Hk). lia.
Qed.

Lemma num_eq_refl x : x ≠ FNaN → num_eq x x = true.
Proof.
  destruct x as [|b|q]; [done| |]; intros _; simpl.
  - by destruct b.
  - apply Qeq_bool_iff. reflexivity.
Qed.

Lemma py_eq_elements_refl (l : list pyval) :
  Forall (λ x, py_eq x x = true) l → py_eq (VList l) (VList l) = true.
Proof.
  simpl. induction 1 as [|x l Hx _ IH]; [done|].
  by rewrite Hx, IH.
Qed.

(** [v == v] holds for every value without a NaN inside. *)
Lemma py_eq_refl v : nan_free v = true → py_eq v v = true.
Proof.
  induction v as [|b|z|f|s|l IH|d IH] using pyval_ind; intros Hv.
  - done.
  - simpl. apply Qeq_bool_iff. reflexivity.
  - simpl. apply Qeq_bool_iff. reflexivity.
  - simpl. apply num_eq_refl. by destruct f.
  - simpl. apply String.eqb_refl.
  - apply py_eq_elements_refl. simpl in Hv.
    rewrite forallb_forall in Hv.
    rewrite Forall_forall in IH |- *. intros x Hx.
    apply IH; [done|]. apply Hv. by apply list_elem_of_In.
  - simpl in *. rewrite Nat.eqb_refl. simpl.
    apply map_fold_andb. intros k x Hk. rewrite Hk.
    apply (IH k x Hk).
    apply (map_fold_andb (λ _ x, nan_free x)) in Hv. by apply (Hv k).
Qed.

(** Only [None] is equal to [None]. *)
Lemma py_eq_None_l v : py_eq VNone v = true → v = VNone.
Proof. by destruct v. Qed.

Lemma matches_entries_spec (item entries : pydict) :
  DynamoDBItemExpectation._matches_entries item entries = true ↔
  ∀ k v, entries !! k = Some v → py_eq (dict_get item k) v = true.
Proof.
  unfold DynamoDBItemExpectation._matches_entries, all, items.
  rewrite forallb_forall. split.
  - intros H k v Hk.
    apply (H (k, v)), list_elem_of_In, elem_of_map_to_list, Hk.
  - intros H [k v] Hk. apply H.
    by apply elem_of_map_to_list, list_elem_of_In.
Qed.

(** ** The subset test (claims C1 and C9) *)

(** C1, as stated, fails twice.  By the language: [True == 1], so a
    candidate holding the boolean matches an expectation of the integer
    although the two values differ.  By the lookup: [item.get(k)] is [None]
    for a key that is not there, so an expected [None] is met by a candidate
    that lacks the key. *)
Lemma subset_match_as_stated_fails :
  ¬ subset_match_as_stated DynamoDBItemExpectation._matches_entries
      {[ "active" := VBool true ]} {[ "active" := VInt 1 ]}
  ∧ ¬ subset_match_as_stated DynamoDBItemExpectation._matches_entries
      ∅ {[ "status" := VNone ]}.
Proof.
  split; intros [Hmatch _].
  - assert (Hk : ({[ "active" := VInt 1 ]} : pydict) !! "active"
                 = Some (VInt 1)) by (vm_compute; reflexivity).
    apply Hmatch in Hk; [|vm_compute; reflexivity].
    vm_compute in Hk. discriminate.
  - assert (Hk : ({[ "status" := VNone ]} : pydict) !! "status"
                 = Some VNone) by (vm_compute; reflexivity).
    apply Hmatch in Hk; [|vm_compute; reflexivity].
    vm_compute in Hk. discriminate.
Qed.

(** C1 (amended): for every candidate and every expected mapping such that
    each key expected to be [None] is present in the candidate, the subset
    test of both waiters returns true if and only if for every key [k] of
    the expectation the candidate contains [k] and
    [candidate[k] == expected[k]] holds under the [==] of the language; it is
    a total function, so a missing key raises nothing. *)
Theorem matches_entries_subset (candidate expected : pydict) :
  (∀ k, expected !! k = Some VNone → is_Some (candidate !! k)) →
  (DynamoDBItemExpectation._matches_entries candidate expected = true ↔
   ∀ k v, expected !! k = Some v →
          ∃ c, candidate !! k = Some c ∧ py_eq c v = true)
  ∧ S3ObjectExpectation._matches_entries candidate expected
    = DynamoDBItemExpectation._matches_entries candidate expected.
Proof.
  intros Hnone. split; [|done].
  rewrite matches_entries_spec. split; intros H k v Hk.
  - specialize (H k v Hk). unfold dict_get in H.
    destruct (candidate !! k) as [c|] eqn:Hc; simpl in H; [by exists c|].
    apply py_eq_None_l in H. subst v.
    destruct (Hnone k Hk) as [c Hc']. congruence.
  - destruct (H k v Hk) as (c & Hc & Heq). unfold dict_get.
    by rewrite Hc.
Qed.

Lemma matches_entries_subset_witness :
  (∀ k, ({[ "status" := VStr "active" ]} : pydict) !! k = Some VNone →
        is_Some (({[ "status" := VStr "active"; "total" := VInt 100 ]}
                  : pydict) !! k))
  ∧ DynamoDBItemExpectation._matches_entries
      {[ "status" := VStr "active"; "total" := VInt 100 ]}
      {[ "status" := VStr "active" ]} = true.
Proof.
  assert (Hnone : ∀ k,
    ({[ "status" := VStr "active" ]} : pydict) !! k = Some VNone →
    is_Some (({[ "status" := VStr "active"; "total" := VInt 100 ]}
              : pydict) !! k)).
  { intros k. destruct (decide (k = "status")) as [->|Hk].
    - rewrite lookup_singleton_eq. discriminate.
    - rewrite lookup_singleton_ne by done. discriminate. }
  split; [exact Hnone|].
  destruct (matches_entries_subset
              {[ "status" := VStr "active"; "total" := VInt 100 ]}
              {[ "status" := VStr "active" ]} Hnone) as [[_ Hif] _].
  apply Hif. intros k v Hk. destruct (decide (k = "status")) as [->|Hne].
  - rewrite lookup_singleton_eq in Hk. injection Hk as <-.
    exists (VStr "active"). split; vm_compute; reflexivity.
  - rewrite lookup_singleton_ne in Hk by done. discriminate.
Defined.

(** C9, as stated, fails on a NaN: [nan == nan] is false, so a mapping that
    holds one does not match itself. *)
Lemma matches_entries_not_reflexive :
  DynamoDBItemExpectation._matches_entries
    {[ "ratio" := VFloat FNaN ]} {[ "ratio" := VFloat FNaN ]} = false.
Proof. vm_compute. reflexivity. Qed.

(** C9 (amended): the empty expectation matches every candidate, and every
    mapping that holds no NaN matches itself, for the helper of both
    waiters. *)
Theorem matches_entries_empty_reflexive (x : pydict) :
  DynamoDBItemExpectation._matches_entries x ∅ = true
  ∧ S3ObjectExpectation._matches_entries x ∅ = true
  ∧ (nan_free (VDict x) = true →
     DynamoDBItemExpectation._matches_entries x x = true
     ∧ S3ObjectExpectation._matches_entries x x = true).
Proof.
  split; [|split]; [by vm_compute..|].
  intros Hx.
  assert (DynamoDBItemExpectation._matches_entries x x = true); [|done].
  apply matches_entries_spec. intros k v Hk.
  unfold dict_get. rewrite Hk. simpl. apply py_eq_refl.
  simpl in Hx. apply (map_fold_andb (λ _ x, nan_free x)) in Hx.
  by apply (Hx k).
Qed.

Lemma matches_entries_empty_reflexive_witness :
  nan_free (VDict {[ "pk" := VStr "user-1";
                     "tags" := VList [VInt 1; VFloat (FInf false)] ]}) = true
  ∧ DynamoDBItemExpectation._matches_entries
      {[ "pk" := VStr "user-1"; "tags" := VList [VInt 1; VFloat (FInf false)] ]}
      {[ "pk" := VStr "user-1"; "tags" := VList [VInt 1; VFloat (FInf false)] ]}
    = true.
Proof.
  split; [vm_compute; reflexivity|].
  destruct (matches_entries_empty_reflexive
              {[ "pk" := VStr "user-1";
                 "tags" := VList [VInt 1; VFloat (FInf false)] ]})
    as (_ & _ & Hrefl).
  apply Hrefl. vm_compute. reflexivity.
Defined.

(** ** Running computations *)

Lemma bind_run {A B} (m : M A) (f : A → M B) O w :
  (m ≫= f) O w =
  match m O w with
  | (Return a, w') => f a O w'
  | (Raise e, w') => (Raise e, w')
  | (Running, w') => (Running, w')
  end.
Proof. reflexivity. Qed.

Lemma call_run {A} req (script : Outside → nat → reply A) O w :
  call req script O w =
  (match script O (ticks w) with
   | Returns a => Return a
   | Raises e => Raise e
   end, after_call O w req).
Proof. unfold call, after_call. by destruct (script O (ticks w)). Qed.

Lemma sleep_run seconds O w :
  (0 <= seconds)%Q →
  time.sleep seconds O w = (Return (), after_sleep O w seconds).
Proof.
  intros Hs. unfold time.sleep, after_sleep.
  destruct (Qlt_le_dec seconds 0) as [Hneg|_]; [|done].
  exfalso. apply (Qlt_not_le _ _ Hneg Hs).
Qed.

Lemma py_min_spec (a b : Q) :
  (py_min a b <= a)%Q ∧ (py_min a b <= b)%Q
  ∧ (py_min a b = a ∨ py_min a b = b)
  ∧ ((b <= a)%Q → (py_min a b == b)%Q).
Proof.
  unfold py_min. destruct (Qlt_le_dec b a) as [H|H]; repeat split;
    auto; try lra. 
Qed.

Lemma Qle_bool_false (x y : Q) : Qle_bool x y = false → (y < x)%Q.
Proof.
  intros H. apply Qnot_le_lt. intros Hle.
  apply Qle_bool_iff in Hle. congruence.
Qed.

(** ** The polling loop *)

Section poll_loop.

Context {A : Type} (attempt : M (option A)) (req : request).
Context (timed_out : exn) (delay : Z) (deadline : Q).
Hypothesis attempt_calls : single_call attempt req.
Hypothesis delay_ge_1 : (1 <= delay)%Z.

Lemma delay_Q : (1 <= inject_Z delay)%Q.
Proof. change 1%Q with (inject_Z 1). by rewrite <- Zle_Qle. Qed.

Lemma nap_positive (at0 : Q) :
  (0 < deadline - at0)%Q →
  (0 < py_min (inject_Z delay) (deadline - at0))%Q.
Proof.
  intros H. pose proof delay_Q.
  destruct (py_min_spec (inject_Z delay) (deadline - at0))
    as (_ & _ & [-> | ->] & _); lra.
Qed.

(** One turn of the loop. *)
Lemma poll_loop_step fuel O w :
  poll_loop (S fuel) attempt timed_out delay deadline O w =
  match (attempt O w).1 with
  | Return (Some a) => (Return a, after_call O w req)
  | Return None =>
      let w1 := after_call O w req in
      if Qle_bool (deadline - now w1) 0 then (Raise timed_out, w1)
      else poll_loop fuel attempt timed_out delay deadline O
             (after_sleep O w1
                (py_min (inject_Z delay) (deadline - now w1)))
  | Raise e => (Raise e, after_call O w req)
  | Running => (Running, after_call O w req)
  end.
Proof.
  destruct (attempt_calls O w) as [Hw _].
  simpl. rewrite bind_run.
  destruct (attempt O w) as [[[a|]|e|] w1]; simpl in *; subst w1;
    try reflexivity.
  rewrite bind_run. unfold time.monotonic. simpl.
  destruct (Qle_bool _ 0) eqn:Hrem; [reflexivity|].
  rewrite bind_run, sleep_run; [reflexivity|].
  apply Qlt_le_weak, nap_positive, Qle_bool_false, Hrem.
Qed.




End poll_loop.


(** ** The five waits are polling loops *)

Lemma to_exist_attempt_calls self key entries :
  single_call (to_exist_attempt self key entries)
    (GetItem (DynamoDBItemExpectation.name
                (DynamoDBItemExpectation._table self)) key).
Proof.
  intros O w. unfold to_exist_attempt, DynamoDBItemExpectation.get_item.
  rewrite bind_run, call_run.
  destruct (get_item_reply _ _ _ _) as [[[item|]]|e]; cbn; [|done..].
  by destruct (match entries with Some _ => _ | None => _ end).
Qed.

Lemma to_not_exist_attempt_calls self key :
  single_call (to_not_exist_attempt self key)
    (GetItem (DynamoDBItemExpectation.name
                (DynamoDBItemExpectation._table self)) key).
Proof.
  intros O w. unfold to_not_exist_attempt, DynamoDBItemExpectation.get_item.
  rewrite bind_run, call_run.
  by destruct (get_item_reply _ _ _ _) as [[[item|]]|e].
Qed.

Lemma to_be_empty_attempt_calls self :
  single_call (to_be_empty_attempt self)
    (Scan (DynamoDBItemExpectation.name
             (DynamoDBItemExpectation._table self)) "COUNT" 1).
Proof.
  intros O w. unfold to_be_empty_attempt, DynamoDBItemExpectation.scan.
  rewrite bind_run, call_run.
  destruct (scan_reply _ _ _) as [[count]|e]; cbn; [|done].
  by destruct (_ =? _)%Z.
Qed.

Lemma to_not_be_empty_attempt_calls self :
  single_call (to_not_be_empty_attempt self)
    (Scan (DynamoDBItemExpectation.name
             (DynamoDBItemExpectation._table self)) "COUNT" 1).
Proof.
  intros O w. unfold to_not_be_empty_attempt, DynamoDBItemExpectation.scan.
  rewrite bind_run, call_run.
  destruct (scan_reply _ _ _) as [[count]|e]; cbn; [|done].
  by destruct (_ >? _)%Z.
Qed.

Lemma poll_for_entries_except_pure err h :
  S3ObjectExpectation._poll_for_entries_except err = Some h →
  ∀ O w, (h O w).2 = w ∧ (h O w).1 ≠ Running.
Proof.
  unfold S3ObjectExpectation._poll_for_entries_except.
  destruct (isinstance err class_ClientError).
  - intros [= <-] O w. by destruct (S3ObjectExpectation.not_in _ _).
  - destruct (_ || _); [|done]. by intros [= <-] O w.
Qed.

Lemma try_except_raise {A} (body : M A) handler O w e w1 :
  body O w = (Raise e, w1) →
  try_except body handler O w =
  match handler e with
  | Some h => h O w1
  | None => (Raise e, w1)
  end.
Proof. unfold try_except. by intros ->. Qed.

Lemma try_except_return {A} (body : M A) handler O w a w1 :
  body O w = (Return a, w1) →
  try_except body handler O w = (Return a, w1).
Proof. unfold try_except. by intros ->. Qed.

(** What happens inside the [try]: the object is fetched, then parsed, then
    compared. *)
Lemma poll_for_entries_body_run json_loads self entries O w :
  (response ← S3ObjectExpectation.get_object
                (S3ObjectExpectation._bucket self)
                (S3ObjectExpectation._key self);
   body ← lift (json_loads response);
   match body with
   | VDict body =>
       if S3ObjectExpectation._matches_entries body entries
       then mret (Some body) else mret None
   | _ => mret None
   end) O w
  = (match get_object_reply O (ticks w) (S3ObjectExpectation._bucket self)
             (S3ObjectExpectation._key self) with
     | Raises e => Raise e
     | Returns raw =>
         match json_loads raw with
         | Raises e => Raise e
         | Returns (VDict body) =>
             if S3ObjectExpectation._matches_entries body entries
             then Return (Some body) else Return None
         | Returns _ => Return None
         end
     end,
     after_call O w (GetObject (S3ObjectExpectation._bucket self)
                               (S3ObjectExpectation._key self))).
Proof.
  unfold S3ObjectExpectation.get_object. rewrite bind_run, call_run.
  destruct (get_object_reply _ _ _ _) as [raw|e]; [|done].
  rewrite bind_run. destruct (json_loads raw) as [body|e]; [|done].
  cbn. destruct body; try done.
  by destruct (S3ObjectExpectation._matches_entries _ _).
Qed.

Lemma try_except_calls {A} (body : M A) handler req :
  single_call body req →
  (∀ e h, handler e = Some h → ∀ O w, (h O w).2 = w ∧ (h O w).1 ≠ Running) →
  single_call (try_except body handler) req.
Proof.
  intros Hbody Hpure O w. destruct (Hbody O w) as [Hw Hr].
  unfold try_except.
  destruct (body O w) as [[a|e|] w1]; cbn [fst snd] in *; [done| |done].
  subst w1. destruct (handler e) as [h|] eqn:Hh; [|done].
  by apply (Hpure e h Hh).
Qed.

Lemma poll_for_entries_try_calls json_loads self entries :
  single_call (S3ObjectExpectation._poll_for_entries_try json_loads self entries)
    (GetObject (S3ObjectExpectation._bucket self)
               (S3ObjectExpectation._key self)).
Proof.
  apply try_except_calls; [|apply poll_for_entries_except_pure].
  intros O w. rewrite poll_for_entries_body_run. split; [done|].
  cbn [fst].
  destruct (get_object_reply _ _ _ _) as [raw|e]; [|done].
  destruct (json_loads raw) as [[]|]; try done.
  by destruct (S3ObjectExpectation._matches_entries _ _).
Qed.

Lemma wait_more_ext {A} (k1 k2 : M A) timed_out (delay : Z) deadline O w :
  (∀ w, k1 O w = k2 O w) →
  (now ← time.monotonic;
   if Qle_bool (deadline - now) 0 then raise timed_out
   else time.sleep (py_min (inject_Z delay) (deadline - now));; k1) O w
  = (now ← time.monotonic;
     if Qle_bool (deadline - now) 0 then raise timed_out
     else time.sleep (py_min (inject_Z delay) (deadline - now));; k2) O w.
Proof.
  intros Hk. rewrite !bind_run. cbn [time.monotonic].
  destruct (Qle_bool _ _); [done|]. rewrite !bind_run.
  destruct (time.sleep _ _ _) as [[[]|?|] ?]; auto.
Qed.

Lemma poll_loop_unfold {A} fuel (attempt : M (option A)) timed_out delay
    deadline O w :
  poll_loop (S fuel) attempt timed_out delay deadline O w =
  match attempt O w with
  | (Return (Some a), w1) => (Return a, w1)
  | (Return None, w1) =>
      (now ← time.monotonic;
       if Qle_bool (deadline - now) 0 then raise timed_out
       else time.sleep (py_min (inject_Z delay) (deadline - now));;
            poll_loop fuel attempt timed_out delay deadline) O w1
  | (Raise e, w1) => (Raise e, w1)
  | (Running, w1) => (Running, w1)
  end.
Proof.
  cbn [poll_loop]. rewrite bind_run.
  by destruct (attempt O w) as [[[a|]|e|] w1].
Qed.

Lemma to_exist_loop_shape fuel self key timeout entries delay deadline O w :
  DynamoDBItemExpectation.to_exist_loop fuel self key timeout entries
    delay deadline O w
  = poll_loop fuel (to_exist_attempt self key entries)
      (DynamoDBWaitTimeoutError (DynamoDBItemExpectation._table_name self)
         (Some key) timeout None)
      delay deadline O w.
Proof.
  revert w. induction fuel as [|fuel IH]; intros w; [reflexivity|].
  rewrite poll_loop_unfold.
  cbn [DynamoDBItemExpectation.to_exist_loop]. unfold to_exist_attempt.
  rewrite !bind_run.
  unfold DynamoDBItemExpectation.get_item. rewrite call_run.
  destruct (get_item_reply _ _ _ _) as [[[item|]]|e]; cbn [Item];
    [|by apply wait_more_ext|done].
  destruct (match entries with Some _ => _ | None => _ end); [done|].
  by apply wait_more_ext.
Qed.

Lemma to_not_exist_loop_shape fuel self key timeout delay deadline O w :
  DynamoDBItemExpectation.to_not_exist_loop fuel self key timeout
    delay deadline O w
  = poll_loop fuel (to_not_exist_attempt self key)
      (DynamoDBWaitTimeoutError (DynamoDBItemExpectation._table_name self)
         (Some key) timeout None)
      delay deadline O w.
Proof.
  revert w. induction fuel as [|fuel IH]; intros w; [reflexivity|].
  rewrite poll_loop_unfold.
  cbn [DynamoDBItemExpectation.to_not_exist_loop].
  unfold to_not_exist_attempt. rewrite !bind_run.
  unfold DynamoDBItemExpectation.get_item. rewrite call_run.
  destruct (get_item_reply _ _ _ _) as [[[item|]]|e]; cbn [Item];
    [by apply wait_more_ext|done..].
Qed.

Lemma to_be_empty_loop_shape fuel self timeout delay deadline O w :
  DynamoDBItemExpectation.to_be_empty_loop fuel self timeout delay deadline
    O w
  = poll_loop fuel (to_be_empty_attempt self)
      (DynamoDBWaitTimeoutError (DynamoDBItemExpectation._table_name self)
         None timeout
         (Some (DynamoDBItemExpectation.to_be_empty_message self timeout)))
      delay deadline O w.
Proof.
  revert w. induction fuel as [|fuel IH]; intros w; [reflexivity|].
  rewrite poll_loop_unfold.
  cbn [DynamoDBItemExpectation.to_be_empty_loop].
  unfold to_be_empty_attempt. rewrite !bind_run.
  unfold DynamoDBItemExpectation.scan. rewrite call_run.
  destruct (scan_reply _ _ _) as [[count]|e]; [|done].
  destruct (_ =? _)%Z; [done|]. by apply wait_more_ext.
Qed.

Lemma to_not_be_empty_loop_shape fuel self timeout delay deadline O w :
  DynamoDBItemExpectation.to_not_be_empty_loop fuel self timeout delay
    deadline O w
  = poll_loop fuel (to_not_be_empty_attempt self)
      (DynamoDBWaitTimeoutError (DynamoDBItemExpectation._table_name self)
         None timeout
         (Some (DynamoDBItemExpectation.to_not_be_empty_message self
                  timeout)))
      delay deadline O w.
Proof.
  revert w. induction fuel as [|fuel IH]; intros w; [reflexivity|].
  rewrite poll_loop_unfold.
  cbn [DynamoDBItemExpectation.to_not_be_empty_loop].
  unfold to_not_be_empty_attempt. rewrite !bind_run.
  unfold DynamoDBItemExpectation.scan. rewrite call_run.
  destruct (scan_reply _ _ _) as [[count]|e]; [|done].
  destruct (_ >? _)%Z; [done|]. by apply wait_more_ext.
Qed.

Lemma poll_for_entries_loop_shape json_loads fuel self timeout entries delay
    deadline O w :
  S3ObjectExpectation._poll_for_entries_loop json_loads fuel self timeout
    entries delay deadline O w
  = poll_loop fuel
      (S3ObjectExpectation._poll_for_entries_try json_loads self entries)
      (S3WaitTimeoutError (S3ObjectExpectation._bucket self)
         (S3ObjectExpectation._key self) timeout)
      delay deadline O w.
Proof.
  revert w. induction fuel as [|fuel IH]; intros w; [reflexivity|].
  rewrite poll_loop_unfold.
  cbn [S3ObjectExpectation._poll_for_entries_loop]. rewrite bind_run.
  destruct (S3ObjectExpectation._poll_for_entries_try _ _ _ _ _)
    as [[[body|]|e|] w1]; [done| |done..].
  by apply wait_more_ext.
Qed.

(** The fuel is only a bound: a run that has ended is the same run with any
    more fuel. *)
Lemma poll_loop_more_fuel {A} (attempt : M (option A)) timed_out delay
    deadline O more : ∀ fuel w,
  (poll_loop fuel attempt timed_out delay deadline O w).1 ≠ Running →
  poll_loop (fuel + more) attempt timed_out delay deadline O w
  = poll_loop fuel attempt timed_out delay deadline O w.
Proof.
  induction fuel as [|fuel IH]; intros w Hends; [done|].
  change (S fuel + more)%nat with (S (fuel + more)).
  rewrite !poll_loop_unfold in *.
  destruct (attempt O w) as [[[a|]|e|] w1]; try done.
  rewrite !bind_run in *. cbn [time.monotonic] in *.
  destruct (Qle_bool _ _); [done|]. rewrite !bind_run in *.
  destruct (time.sleep _ _ _) as [[[]|?|] w2]; try done.
  by apply IH.
Qed.

(** ** The waits, as runs of the polling loop *)

Lemma compute_delay_ge_1 poll_interval :
  (1 <= DynamoDBItemExpectation._compute_delay poll_interval)%Z.
Proof. unfold DynamoDBItemExpectation._compute_delay. lia. Qed.

Lemma to_exist_is_loop fuel self key timeout poll_interval entries O w :
  DynamoDBItemExpectation.to_exist fuel self key timeout poll_interval
    entries O w
  = poll_loop fuel (to_exist_attempt self key entries)
      (DynamoDBWaitTimeoutError (DynamoDBItemExpectation._table_name self)
         (Some key) timeout None)
      (Z.max 1 (math.ceil poll_interval)) (now w + timeout)%Q O w.
Proof. apply to_exist_loop_shape. Qed.

Lemma to_not_exist_is_loop fuel self key timeout poll_interval O w :
  DynamoDBItemExpectation.to_not_exist fuel self key timeout poll_interval
    O w
  = poll_loop fuel (to_not_exist_attempt self key)
      (DynamoDBWaitTimeoutError (DynamoDBItemExpectation._table_name self)
         (Some key) timeout None)
      (Z.max 1 (math.ceil poll_interval)) (now w + timeout)%Q O w.
Proof. apply to_not_exist_loop_shape. Qed.

Lemma to_be_empty_is_loop fuel self timeout poll_interval O w :
  DynamoDBItemExpectation.to_be_empty fuel self timeout poll_interval O w
  = poll_loop fuel (to_be_empty_attempt self)
      (DynamoDBWaitTimeoutError (DynamoDBItemExpectation._table_name self)
         None timeout
         (Some (DynamoDBItemExpectation.to_be_empty_message self timeout)))
      (Z.max 1 (math.ceil poll_interval)) (now w + timeout)%Q O w.
Proof. apply to_be_empty_loop_shape. Qed.

Lemma to_not_be_empty_is_loop fuel self timeout poll_interval O w :
  DynamoDBItemExpectation.to_not_be_empty fuel self timeout poll_interval
    O w
  = poll_loop fuel (to_not_be_empty_attempt self)
      (DynamoDBWaitTimeoutError (DynamoDBItemExpectation._table_name self)
         None timeout
         (Some (DynamoDBItemExpectation.to_not_be_empty_message self
                  timeout)))
      (Z.max 1 (math.ceil poll_interval)) (now w + timeout)%Q O w.
Proof. apply to_not_be_empty_loop_shape. Qed.

Lemma poll_for_entries_is_loop json_loads fuel self timeout poll_interval
    entries O w :
  S3ObjectExpectation._poll_for_entries json_loads fuel self timeout
    poll_interval entries O w
  = poll_loop fuel
      (S3ObjectExpectation._poll_for_entries_try json_loads self entries)
      (S3WaitTimeoutError (S3ObjectExpectation._bucket self)
         (S3ObjectExpectation._key self) timeout)
      (Z.max 1 (math.ceil poll_interval)) (now w + timeout)%Q O w.
Proof. apply poll_for_entries_loop_shape. Qed.

Lemma max_1_ge_1 z : (1 <= Z.max 1 z)%Z.
Proof. lia. Qed.

(** With nothing left at the start, the loop polls once and ends. *)
Lemma poll_loop_zero_timeout {A} (attempt : M (option A)) req timed_out
    delay deadline fuel O w :
  single_call attempt req → (1 <= delay)%Z → punctual O →
  (deadline <= now w)%Q →
  poll_loop (S fuel) attempt timed_out delay deadline O w
  = (verdict (attempt O w).1 timed_out, after_call O w req).
Proof.
  intros Hcall Hdelay HO Hdead.
  rewrite (poll_loop_step attempt req timed_out delay deadline Hcall Hdelay).
  destruct ((attempt O w).1) as [[a|]|e|]; try reflexivity.
  cbv zeta. destruct (Qle_bool _ _) eqn:Hrem; [reflexivity|].
  apply Qle_bool_false in Hrem. cbn [now after_call] in Hrem.
  pose proof (HO (ticks w)). lra.
Qed.

(** With [n] delays covering what remains, the loop ends within [n + 1]
    polls: a sleep either lasts a full delay or reaches the deadline. *)
Lemma poll_loop_terminates {A} (attempt : M (option A)) req timed_out delay
    deadline O :
  single_call attempt req → (1 <= delay)%Z → punctual O →
  ∀ n w,
    (deadline - now w <= inject_Z (Z.of_nat n) * inject_Z delay)%Q →
    (poll_loop (S n) attempt timed_out delay deadline O w).1 ≠ Running.
Proof.
  intros Hcall Hdelay HO.
  assert (Hd : (1 <= inject_Z delay)%Q).
  { change 1%Q with (inject_Z 1). by rewrite <- Zle_Qle. }
  assert (Hone : ∀ w,
    (deadline - now w <= 0)%Q →
    ∀ fuel, (poll_loop (S fuel) attempt timed_out delay deadline O w).1
            ≠ Running).
  { intros w Hrem fuel.
    rewrite (poll_loop_zero_timeout attempt req timed_out delay deadline
               fuel O w Hcall Hdelay HO); [|lra].
    destruct (Hcall O w) as [_ Hrun]. cbn [fst].
    by destruct ((attempt O w).1) as [[a|]|e|]. }
  induction n as [|n IH]; intros w Hrem.
  { apply Hone. change (inject_Z (Z.of_nat 0)) with 0%Q in Hrem. lra. }
  rewrite (poll_loop_step attempt req timed_out delay deadline Hcall Hdelay).
  destruct (Hcall O w) as [_ Hrun].
  destruct ((attempt O w).1) as [[a|]|e|]; try done.
  cbv zeta. set (w1 := after_call O w req).
  destruct (Qle_bool (deadline - now w1) 0) eqn:Hleft; [done|].
  apply Qle_bool_false in Hleft.
  set (nap := py_min (inject_Z delay) (deadline - now w1)).
  apply IH. cbn [now after_sleep].
  assert (Hw1 : (now w <= now w1)%Q).
  { cbn [now w1 after_call]. pose proof (HO (ticks w)). lra. }
  pose proof (HO (ticks w1)) as Hlat.
  assert (Hn : (0 <= inject_Z (Z.of_nat n))%Q).
  { change 0%Q with (inject_Z 0). rewrite <- Zle_Qle. lia. }
  assert (HSn : (inject_Z (Z.of_nat (S n)) == inject_Z (Z.of_nat n) + 1)%Q).
  { rewrite Nat2Z.inj_succ. unfold Z.succ. rewrite inject_Z_plus.
    reflexivity. }
  rewrite HSn in Hrem.
  destruct (py_min_spec (inject_Z delay) (deadline - now w1))
    as (_ & _ & [Hnap|Hnap] & _); fold nap in Hnap; rewrite Hnap.
  - nra.
  - assert (0 <= inject_Z (Z.of_nat n) * inject_Z delay)%Q by nra. lra.
Qed.

(** ** Claim C5: the deadline arithmetic of every poll *)




(** ** Claim C2: a timeout that is not positive *)

(** C2: with [timeout <= 0], whatever the store holds, each polling wait
    issues exactly one query (the world it ends in is the world right after
    that one call: one check on the trace, no sleep) and ends by the verdict
    on that one poll: the result when the poll succeeded, the typed timeout
    error when it did not.  The native waits of the object waiter are handed
    [MaxAttempts = 1]. *)
Theorem zero_timeout_polls_exactly_once
    (json_loads : list Byte.byte → reply pyval) (fuel : nat)
    (waiter : DynamoDBItemExpectation.t) (s3waiter : S3ObjectExpectation.t)
    (key : pydict) (timeout poll_interval : Q)
    (entries : option pydict) (expected : pydict) (O : Outside) (w : World) :
  (timeout <= 0)%Q → punctual O →
  let table := DynamoDBItemExpectation._table_name waiter in
  let stored := DynamoDBItemExpectation.name
                  (DynamoDBItemExpectation._table waiter) in
  DynamoDBItemExpectation.to_exist (S fuel) waiter key timeout poll_interval
    entries O w
  = (verdict (to_exist_attempt waiter key entries O w).1
       (DynamoDBWaitTimeoutError table (Some key) timeout None),
     after_call O w (GetItem stored key))
  ∧ DynamoDBItemExpectation.to_not_exist (S fuel) waiter key timeout
      poll_interval O w
    = (verdict (to_not_exist_attempt waiter key O w).1
         (DynamoDBWaitTimeoutError table (Some key) timeout None),
       after_call O w (GetItem stored key))
  ∧ DynamoDBItemExpectation.to_be_empty (S fuel) waiter timeout
      poll_interval O w
    = (verdict (to_be_empty_attempt waiter O w).1
         (DynamoDBWaitTimeoutError table None timeout
            (Some (DynamoDBItemExpectation.to_be_empty_message waiter
                     timeout))),
       after_call O w (Scan stored "COUNT" 1))
  ∧ DynamoDBItemExpectation.to_not_be_empty (S fuel) waiter timeout
      poll_interval O w
    = (verdict (to_not_be_empty_attempt waiter O w).1
         (DynamoDBWaitTimeoutError table None timeout
            (Some (DynamoDBItemExpectation.to_not_be_empty_message waiter
                     timeout))),
       after_call O w (Scan stored "COUNT" 1))
  ∧ S3ObjectExpectation._poll_for_entries json_loads (S fuel) s3waiter timeout
      poll_interval expected O w
    = (verdict
         (S3ObjectExpectation._poll_for_entries_try json_loads s3waiter
            expected O w).1
         (S3WaitTimeoutError (S3ObjectExpectation._bucket s3waiter)
            (S3ObjectExpectation._key s3waiter) timeout),
       after_call O w
         (GetObject (S3ObjectExpectation._bucket s3waiter)
                    (S3ObjectExpectation._key s3waiter)))
  ∧ S3ObjectExpectation._build_waiter_config timeout poll_interval
    = Returns {| Delay := Z.max 1 (math.ceil poll_interval);
                 MaxAttempts := 1 |}.
Proof.
  intros Htimeout HO. cbv zeta.
  assert (Hdead : (now w + timeout <= now w)%Q) by lra.
  split_and!.
  - rewrite to_exist_is_loop.
    apply poll_loop_zero_timeout;
      auto using to_exist_attempt_calls, max_1_ge_1.
  - rewrite to_not_exist_is_loop.
    apply poll_loop_zero_timeout;
      auto using to_not_exist_attempt_calls, max_1_ge_1.
  - rewrite to_be_empty_is_loop.
    apply poll_loop_zero_timeout;
      auto using to_be_empty_attempt_calls, max_1_ge_1.
  - rewrite to_not_be_empty_is_loop.
    apply poll_loop_zero_timeout;
      auto using to_not_be_empty_attempt_calls, max_1_ge_1.
  - rewrite poll_for_entries_is_loop.
    apply poll_loop_zero_timeout;
      auto using poll_for_entries_try_calls, max_1_ge_1.
  - by rewrite build_waiter_config_run, max_attempts_no_timeout.
Qed.

(** ** Claim C6: the record found is the record returned *)

Lemma to_exist_attempt_run self key entries O w :
  to_exist_attempt self key entries O w
  = (match get_item_reply O (ticks w)
             (DynamoDBItemExpectation.name
                (DynamoDBItemExpectation._table self)) key with
     | Returns response =>
         match Item response with
         | Some item =>
             if match entries with
                | None => true
                | Some entries =>
                    DynamoDBItemExpectation._matches_entries item entries
                end
             then Return (Some item) else Return None
         | None => Return None
         end
     | Raises e => Raise e
     end,
     after_call O w
       (GetItem (DynamoDBItemExpectation.name
                   (DynamoDBItemExpectation._table self)) key)).
Proof.
  unfold to_exist_attempt, DynamoDBItemExpectation.get_item.
  rewrite bind_run, call_run.
  destruct (get_item_reply _ _ _ _) as [[[item|]]|e]; cbn [Item]; try done.
  by destruct (match entries with Some _ => _ | None => _ end).
Qed.

(** A loop that returns, returns what its last poll found. *)
Lemma poll_loop_returns {A} (attempt : M (option A)) timed_out delay deadline
    fuel O : ∀ w a w',
  poll_loop fuel attempt timed_out delay deadline O w = (Return a, w') →
  ∃ w0, attempt O w0 = (Return (Some a), w').
Proof.
  induction fuel as [|fuel IH]; intros w a w' Hrun; [discriminate|].
  rewrite poll_loop_unfold in Hrun.
  destruct (attempt O w) as [[[x|]|e|] w1] eqn:Hatt; try discriminate.
  - injection Hrun as <- <-. eauto.
  - rewrite bind_run in Hrun. cbn [time.monotonic] in Hrun.
    destruct (Qle_bool _ _); [discriminate|]. rewrite bind_run in Hrun.
    destruct (time.sleep _ _ _) as [[[]|?|] w2]; try discriminate. eauto.
Qed.

(** C6: whenever a poll of [to_exist] finds a record for the key, and no
    entries are expected or the record matches them, the wait returns that
    very record, all its fields included, in the world right after that
    poll: nothing is asked of the store again and nothing is slept.
    Conversely, whatever [to_exist] returns is the full record its last poll
    retrieved, and that record met the expectation. *)
Theorem to_exist_returns_the_full_record
    (self : DynamoDBItemExpectation.t) (key : pydict) (timeout : Q)
    (entries : option pydict) :
  let stored := DynamoDBItemExpectation.name
                  (DynamoDBItemExpectation._table self) in
  let met item :=
    match entries with
    | None => True
    | Some entries =>
        DynamoDBItemExpectation._matches_entries item entries = true
    end in
  (∀ fuel delay deadline poll_interval O w response item,
     get_item_reply O (ticks w) stored key = Returns response →
     Item response = Some item →
     met item →
     DynamoDBItemExpectation.to_exist_loop (S fuel) self key timeout entries
       delay deadline O w
     = (Return item, after_call O w (GetItem stored key))
     ∧ DynamoDBItemExpectation.to_exist (S fuel) self key timeout
         poll_interval entries O w
       = (Return item, after_call O w (GetItem stored key)))
  ∧ (∀ fuel poll_interval O w item w',
       DynamoDBItemExpectation.to_exist fuel self key timeout poll_interval
         entries O w = (Return item, w') →
       ∃ w0 response,
         get_item_reply O (ticks w0) stored key = Returns response
         ∧ Item response = Some item
         ∧ met item
         ∧ w' = after_call O w0 (GetItem stored key)).
Proof.
  cbv zeta. split.
  - intros fuel delay deadline poll_interval O w response item Hreply Hitem
      Hmet.
    assert (Hloop : ∀ delay deadline,
      DynamoDBItemExpectation.to_exist_loop (S fuel) self key timeout
        entries delay deadline O w
      = (Return item,
         after_call O w
           (GetItem (DynamoDBItemExpectation.name
                       (DynamoDBItemExpectation._table self)) key))).
    { intros d dl. rewrite to_exist_loop_shape, poll_loop_unfold.
      rewrite to_exist_attempt_run, Hreply, Hitem.
      destruct entries as [entries|]; [|done]. by rewrite Hmet. }
    split; [apply Hloop|]. apply Hloop.
  - intros fuel poll_interval O w item w' Hrun.
    rewrite to_exist_is_loop in Hrun.
    apply poll_loop_returns in Hrun as [w0 Hatt].
    rewrite to_exist_attempt_run in Hatt.
    exists w0.
    destruct (get_item_reply _ _ _ _) as [response|e]; [|discriminate].
    exists response. destruct (Item response) as [found|]; [|discriminate].
    destruct entries as [entries|].
    + destruct (DynamoDBItemExpectation._matches_entries found entries)
        eqn:Hm; [|discriminate].
      injection Hatt as <- <-. by rewrite Hm.
    + by injection Hatt as <- <-.
Qed.

(** ** Claim C10: a scan response without a count *)






(** ** Claim C3: which errors the content-matching loop absorbs *)

Lemma except_absorbs e :
  absorbed_as_stated e →
  S3ObjectExpectation._poll_for_entries_except e = Some (mret None).
Proof. by destruct 1. Qed.




(** ** Claims C4 and C7: the delay and the waiter configuration *)

(** The two native waits, run. *)
Lemma to_not_exist_run self timeout poll_interval O w :
  let bucket := S3ObjectExpectation._bucket self in
  let key := S3ObjectExpectation._key self in
  ∀ cfg,
  S3ObjectExpectation._build_waiter_config timeout poll_interval
  = Returns cfg →
  S3ObjectExpectation.to_not_exist self timeout poll_interval O w
  = (match wait_reply O (ticks w) "object_not_exists" bucket key cfg with
     | Returns _ => Return ()
     | Raises exc =>
         if isinstance exc class_WaiterError
         then Raise (S3WaitTimeoutError bucket key timeout)
         else Raise exc
     end,
     after_call O w (Wait "object_not_exists" bucket key cfg)).
Proof.
  cbv zeta. intros cfg Hcfg. unfold S3ObjectExpectation.to_not_exist.
  rewrite Hcfg. cbn [lift]. rewrite !bind_run. cbn [mret M_ret].
  rewrite bind_run. unfold try_except, S3ObjectExpectation.wait.
  rewrite call_run.
  destruct (wait_reply _ _ _ _ _ _) as [[]|exc]; [done|].
  unfold S3ObjectExpectation.except_WaiterError.
  by destruct (isinstance exc class_WaiterError).
Qed.

Lemma to_exist_native_run json_loads fuel self timeout poll_interval O w :
  let bucket := S3ObjectExpectation._bucket self in
  let key := S3ObjectExpectation._key self in
  ∀ cfg,
  S3ObjectExpectation._build_waiter_config timeout poll_interval
  = Returns cfg →
  let w1 := after_call O w (Wait "object_exists" bucket key cfg) in
  S3ObjectExpectation.to_exist json_loads fuel self timeout poll_interval
    None O w
  = match wait_reply O (ticks w) "object_exists" bucket key cfg with
    | Returns _ =>
        (match head_object_reply O (ticks w1) bucket key with
         | Returns metadata => Return metadata
         | Raises exc => Raise exc
         end, after_call O w1 (HeadObject bucket key))
    | Raises exc =>
        (if isinstance exc class_WaiterError
         then Raise (S3WaitTimeoutError bucket key timeout)
         else Raise exc, w1)
    end.
Proof.
  cbv zeta. intros cfg Hcfg. unfold S3ObjectExpectation.to_exist.
  rewrite Hcfg. cbn [lift]. rewrite !bind_run. cbn [mret M_ret].
  rewrite bind_run. unfold try_except, S3ObjectExpectation.wait.
  rewrite call_run.
  destruct (wait_reply _ _ _ _ _ _) as [[]|exc].
  - unfold S3ObjectExpectation.head_object. by rewrite call_run.
  - unfold S3ObjectExpectation.except_WaiterError.
    by destruct (isinstance exc class_WaiterError).
Qed.

(** C4, as stated, fails on a negative interval with a fractional part:
    for [poll_interval = -1/2] the delay is 1, and not the ceiling, 0. *)
Lemma effective_delay_as_stated_fails :
  ¬ effective_delay_as_stated DynamoDBItemExpectation._compute_delay (-1 # 2).
Proof.
  intros (_ & _ & Hceil).
  assert (Hfrac : has_fractional_part (-1 # 2)).
  { intros Heq. vm_compute in Heq. discriminate. }
  specialize (Hceil Hfrac). vm_compute in Hceil. discriminate.
Qed.

Lemma delay_characterised poll_interval :
  let delay := Z.max 1 (math.ceil poll_interval) in
  (1 <= delay)%Z
  ∧ (poll_interval <= inject_Z delay)%Q
  ∧ (∀ n : Z, (1 <= n)%Z → (poll_interval <= inject_Z n)%Q → (delay <= n)%Z)
  ∧ ((poll_interval <= 0)%Q → delay = 1)
  ∧ ((0 < poll_interval)%Q → delay = math.ceil poll_interval).
Proof.
  cbv zeta. unfold math.ceil.
  pose proof (Qle_ceiling poll_interval) as Hup.
  split_and!.
  - lia.
  - eapply Qle_trans; [exact Hup|]. rewrite <- Zle_Qle. lia.
  - intros n Hn Hp. apply Qceiling_resp_le in Hp.
    rewrite Qceiling_Z in Hp. lia.
  - intros Hp. apply Qceiling_resp_le in Hp.
    change (Qceiling 0) with 0%Z in Hp. lia.
  - intros Hp.
    assert (0 < Qceiling poll_interval)%Z; [|lia].
    rewrite Zlt_Qlt. eapply Qlt_le_trans; [exact Hp|exact Hup].
Qed.

(** C4 (amended): for every [poll_interval], the delay of every wait of
    both waiters is [max(1, ceil(poll_interval))]: the item waiter's
    [_compute_delay], the delay of the content-matching loop of the object
    waiter and the [Delay] handed to its native waits.  It is the least
    whole number that is at least 1 and at least [poll_interval]; it is
    exactly 1 whenever [poll_interval <= 0], and it is the ceiling of
    [poll_interval] whenever [poll_interval] is positive, with or without a
    fractional part. *)
Theorem effective_delay (poll_interval : Q) :
  let delay := Z.max 1 (math.ceil poll_interval) in
  DynamoDBItemExpectation._compute_delay poll_interval = delay
  ∧ (∀ fuel self key timeout entries O w,
       DynamoDBItemExpectation.to_exist fuel self key timeout poll_interval
         entries O w
       = DynamoDBItemExpectation.to_exist_loop fuel self key timeout entries
           delay (now w + timeout)%Q O w)
  ∧ (∀ fuel self key timeout O w,
       DynamoDBItemExpectation.to_not_exist fuel self key timeout
         poll_interval O w
       = DynamoDBItemExpectation.to_not_exist_loop fuel self key timeout
           delay (now w + timeout)%Q O w)
  ∧ (∀ fuel self timeout O w,
       DynamoDBItemExpectation.to_be_empty fuel self timeout poll_interval
         O w
       = DynamoDBItemExpectation.to_be_empty_loop fuel self timeout delay
           (now w + timeout)%Q O w)
  ∧ (∀ fuel self timeout O w,
       DynamoDBItemExpectation.to_not_be_empty fuel self timeout
         poll_interval O w
       = DynamoDBItemExpectation.to_not_be_empty_loop fuel self timeout
           delay (now w + timeout)%Q O w)
  ∧ (∀ json_loads fuel self timeout entries O w,
       S3ObjectExpectation.to_exist json_loads fuel self timeout
         poll_interval (Some entries) O w
       = S3ObjectExpectation._poll_for_entries_loop json_loads fuel self
           timeout entries delay (now w + timeout)%Q O w)
  ∧ (∀ timeout, ∃ attempts,
       S3ObjectExpectation._build_waiter_config timeout poll_interval
       = Returns {| Delay := delay; MaxAttempts := attempts |})
  ∧ (1 <= delay)%Z
  ∧ (poll_interval <= inject_Z delay)%Q
  ∧ (∀ n : Z, (1 <= n)%Z → (poll_interval <= inject_Z n)%Q → (delay <= n)%Z)
  ∧ ((poll_interval <= 0)%Q → delay = 1)
  ∧ ((0 < poll_interval)%Q → delay = math.ceil poll_interval).
Proof.
  cbv zeta.
  destruct (delay_characterised poll_interval) as (H1 & H2 & H3 & H4 & H5).
  split_and!; try done.
  intros timeout. eexists. apply build_waiter_config_run.
Qed.



(** ** Claim C8: the typed timeout errors *)

Lemma poll_loop_ends {A} (attempt : M (option A)) req timed_out delay
    deadline fuel :
  single_call attempt req → (1 <= delay)%Z →
  ends_by_verdict (poll_loop fuel attempt timed_out delay deadline)
    attempt timed_out.
Proof.
  intros Hcall Hdelay O. induction fuel as [|fuel IH]; intros w; [done|].
  rewrite (poll_loop_step attempt req timed_out delay deadline Hcall Hdelay).
  destruct ((attempt O w).1) as [[a|]|e|] eqn:Hatt; cbn [fst]; intros Hr.
  - exists w. by rewrite Hatt.
  - cbv zeta in Hr |- *. destruct (Qle_bool _ _).
    + exists w. by rewrite Hatt.
    + by apply IH.
  - exists w. by rewrite Hatt.
  - done.
Qed.



(** ** The waits at work *)

(** No record under the key, [timeout = 2], [poll_interval = 1]: three polls
    a second apart, then the timeout error with the key and the timeout. *)
Example to_exist_times_out :
  DynamoDBItemExpectation.to_exist 3 users user_1 2 1 None vacant start
  = (Raise (DynamoDBWaitTimeoutError "users" (Some user_1) 2 None),
     {| now := 2; ticks := 5;
        trace := [Called (GetItem "users" user_1) 0 0; Slept 0 1;
                  Called (GetItem "users" user_1) 1 1; Slept 1 1;
                  Called (GetItem "users" user_1) 2 2] |}).
Proof. vm_compute. reflexivity. Qed.

(** A record that never matches, [timeout = 5/2], [poll_interval = 1/2]: the
    delay is a whole second, and the last sleep is cut to the half second
    that remains. *)
Example to_exist_last_sleep_is_cut :
  DynamoDBItemExpectation.to_exist 4 users user_1 (5 # 2) (1 # 2)
    (Some {[ "status" := VStr "shipped" ]}) (holding alice) start
  = (Raise (DynamoDBWaitTimeoutError "users" (Some user_1) (5 # 2) None),
     {| now := 5 # 2; ticks := 7;
        trace := [Called (GetItem "users" user_1) 0 0; Slept 0 1;
                  Called (GetItem "users" user_1) 1 1; Slept 1 1;
                  Called (GetItem "users" user_1) 2 2; Slept 2 (1 # 2);
                  Called (GetItem "users" user_1) (5 # 2) (5 # 2)] |}).
Proof. vm_compute. reflexivity. Qed.

(** The native wait gives up: its [WaiterError] comes out as the typed
    error. *)
Example to_exist_native_gives_up :
  S3ObjectExpectation.to_exist unparsable 0 report 30 5 None vacant start
  = (Raise (S3WaitTimeoutError "reports" "daily.json" 30),
     {| now := 0; ticks := 1;
        trace := [Called (Wait "object_exists" "reports" "daily.json"
                            {| Delay := 5; MaxAttempts := 6 |}) 0 0] |}).
Proof. vm_compute. reflexivity. Qed.

(** ** The theorems at work *)

Lemma vacant_punctual : punctual vacant.
Proof. intros n. cbn. lra. Defined.


Lemma zero_timeout_polls_exactly_once_witness :
  (0 <= 0)%Q ∧ punctual vacant
  ∧ DynamoDBItemExpectation.to_exist 1 users user_1 0 1 None vacant start
    = (Raise (DynamoDBWaitTimeoutError "users" (Some user_1) 0 None),
       after_call vacant start (GetItem "users" user_1)).
Proof.
  split; [discriminate|]. split; [exact vacant_punctual|].
  assert (Hle : (0 <= 0)%Q) by discriminate.
  destruct (zero_timeout_polls_exactly_once unparsable 0 users report
              user_1 0 1 None ∅ vacant start Hle vacant_punctual)
    as [Hrun _].
  rewrite Hrun. reflexivity.
Defined.

Lemma to_exist_returns_the_full_record_witness :
  get_item_reply (holding alice) (ticks start) "users" user_1
  = Returns {| Item := Some alice |}
  ∧ DynamoDBItemExpectation.to_exist 1 users user_1 10 1 None
      (holding alice) start
    = (Return alice, after_call (holding alice) start (GetItem "users" user_1))
  ∧ alice !! "name" = Some (VStr "Alice").
Proof.
  split; [reflexivity|]. split; [|vm_compute; reflexivity].
  destruct (to_exist_returns_the_full_record users user_1 10 None)
    as [Hfound _].
  apply (Hfound 0%nat 1 10%Q 1%Q (holding alice) start
           {| Item := Some alice |} alice eq_refl eq_refl I).
Defined.



Lemma effective_delay_witness :
  ((0 <= 0)%Q ∧ Z.max 1 (math.ceil 0) = 1)
  ∧ ((0 < 5 # 2)%Q ∧ Z.max 1 (math.ceil (5 # 2)) = math.ceil (5 # 2))
  ∧ ((-1 # 2 <= 0)%Q ∧ Z.max 1 (math.ceil (-1 # 2)) = 1).
Proof.
  assert (H0 : (0 <= 0)%Q) by discriminate.
  assert (H1 : (0 < 5 # 2)%Q) by reflexivity.
  assert (H2 : (-1 # 2 <= 0)%Q) by discriminate.
  split; [|split].
  - split; [exact H0|].
    destruct (effective_delay 0)
      as (_ & _ & _ & _ & _ & _ & _ & _ & _ & _ & Hclamp & _).
    exact (Hclamp H0).
  - split; [exact H1|].
    destruct (effective_delay (5 # 2))
      as (_ & _ & _ & _ & _ & _ & _ & _ & _ & _ & _ & Hceil).
    exact (Hceil H1).
  - split; [exact H2|].
    destruct (effective_delay (-1 # 2))
      as (_ & _ & _ & _ & _ & _ & _ & _ & _ & _ & Hclamp & _).
    exact (Hclamp H2).
Defined.



(** * Further properties of the code *)

(** ** What every polling wait keeps *)

Lemma new_events_app w w' evs :
  trace w' = trace w ++ evs → new_events w w' = evs.
Proof. intros Htr. unfold new_events. by rewrite Htr, drop_app_length. Qed.

Lemma instant_punctual O : instant O → punctual O.
Proof. intros HO n. rewrite (HO n). apply Qle_refl. Qed.

Lemma poll_loop_polls {A} (attempt : M (option A)) req timed_out delay
    deadline O :
  single_call attempt req → (1 <= delay)%Z → ∀ fuel w,
  ∃ evs,
    trace (poll_loop fuel attempt timed_out delay deadline O w).2
    = trace w ++ evs
    ∧ (polls evs <= fuel)%nat.
Proof.
  intros Hcall Hdelay. induction fuel as [|fuel IH]; intros w.
  { exists []. by rewrite app_nil_r. }
  rewrite (poll_loop_step attempt req timed_out delay deadline Hcall Hdelay).
  set (w1 := after_call O w req).
  assert (Hone : ∃ evs, trace w1 = trace w ++ evs
                        ∧ (polls evs <= S fuel)%nat).
  { eexists. split; [reflexivity|]. cbn. lia. }
  destruct ((attempt O w).1) as [[a|]|e|]; try exact Hone.
  cbv zeta. fold w1. destruct (Qle_bool _ _); [exact Hone|].
  set (nap := py_min _ _).
  destruct (IH (after_sleep O w1 nap)) as (evs & -> & Hpolls).
  exists (Called req (now w) (now w1) :: Slept (now w1) nap :: evs).
  split.
  - cbn [trace after_sleep after_call w1]. by rewrite <- !app_assoc.
  - cbn. unfold polls in Hpolls. lia.
Qed.

Lemma poll_loop_sleeps {A} (attempt : M (option A)) req timed_out delay
    deadline O :
  single_call attempt req → (1 <= delay)%Z → punctual O → ∀ fuel w,
  ∃ evs,
    trace (poll_loop fuel attempt timed_out delay deadline O w).2
    = trace w ++ evs
    ∧ ((deadline <= now w)%Q → slept evs = [])
    ∧ ((now w <= deadline)%Q → (total_slept evs <= deadline - now w)%Q)
    ∧ (∀ s, s ∈ removelast (slept evs) → s = inject_Z delay).
Proof.
  intros Hcall Hdelay HO.
  assert (Hd : (1 <= inject_Z delay)%Q).
  { change 1%Q with (inject_Z 1). by rewrite <- Zle_Qle. }
  induction fuel as [|fuel IH]; intros w.
  { exists []. rewrite app_nil_r. split_and!; try done.
    - intros. cbn. lra.
    - intros s Hs. inversion Hs. }
  rewrite (poll_loop_step attempt req timed_out delay deadline Hcall Hdelay).
  set (w1 := after_call O w req).
  assert (Hw1 : (now w <= now w1)%Q).
  { cbn [now w1 after_call]. pose proof (HO (ticks w)). lra. }
  assert (Hone : ∃ evs, trace w1 = trace w ++ evs
     ∧ ((deadline <= now w)%Q → slept evs = [])
     ∧ ((now w <= deadline)%Q → (total_slept evs <= deadline - now w)%Q)
     ∧ (∀ s, s ∈ removelast (slept evs) → s = inject_Z delay)).
  { eexists. split; [reflexivity|]. split_and!; try done.
    - intros. cbn. lra.
    - intros s Hs. inversion Hs. }
  destruct ((attempt O w).1) as [[a|]|e|]; try exact Hone.
  cbv zeta. fold w1.
  destruct (Qle_bool (deadline - now w1) 0) eqn:Hrem; [exact Hone|].
  apply Qle_bool_false in Hrem.
  set (nap := py_min (inject_Z delay) (deadline - now w1)).
  set (w2 := after_sleep O w1 nap).
  assert (Hw2 : (now w1 + nap <= now w2)%Q).
  { cbn [now w2 after_sleep]. pose proof (HO (ticks w1)). lra. }
  destruct (IH w2) as (evs & Htr & Hnone & Htotal & Hsteady).
  exists (Called req (now w) (now w1) :: Slept (now w1) nap :: evs).
  split.
  { rewrite Htr. cbn [trace w2 after_sleep after_call w1].
    by rewrite <- !app_assoc. }
  change (slept (Called req (now w) (now w1) :: Slept (now w1) nap :: evs))
    with (nap :: slept evs).
  change (total_slept
            (Called req (now w) (now w1) :: Slept (now w1) nap :: evs))
    with (nap + total_slept evs)%Q.
  unfold nap, py_min in *.
  destruct (Qlt_le_dec (deadline - now w1) (inject_Z delay)) as [Hcut|Hfull].
  - (* the sleep was cut to what remained: nothing is slept after it *)
    assert (Hlate : (deadline <= now w2)%Q) by lra.
    specialize (Hnone Hlate).
    split_and!.
    + intros. lra.
    + intros _. unfold total_slept. rewrite Hnone. cbn [foldr]. lra.
    + rewrite Hnone. intros s Hs. inversion Hs.
  - split_and!.
    + intros. lra.
    + intros _. destruct (Qlt_le_dec deadline (now w2)) as [Hlate|Hearly].
      * unfold total_slept. rewrite (Hnone (Qlt_le_weak _ _ Hlate)).
        cbn [foldr]. lra.
      * specialize (Htotal Hearly). lra.
    + intros s Hs. destruct (slept evs) as [|s' rest] eqn:Hsl.
      { inversion Hs. }
      change (removelast (inject_Z delay :: s' :: rest))
        with (inject_Z delay :: removelast (s' :: rest)) in Hs.
      apply elem_of_cons in Hs as [->|Hs]; [done|]. by apply Hsteady.
Qed.


(** To show a property of all five waits, show it of every instance of the
    polling loop with the clamped delay and the deadline taken at the
    start. *)
Lemma every_polling_wait_intro json_loads waiter s3waiter key timeout
    poll_interval entries expected (P : ∀ A, (nat → M A) → Prop) :
  (∀ A (run : nat → M A) attempt req timed_out,
     single_call attempt req →
     (∀ fuel O w,
        run fuel O w
        = poll_loop fuel attempt timed_out
            (Z.max 1 (math.ceil poll_interval)) (now w + timeout)%Q O w) →
     P A run) →
  every_polling_wait json_loads waiter s3waiter key timeout poll_interval
    entries expected P.
Proof.
  intros HP. unfold every_polling_wait. split_and!.
  - eapply HP; [apply to_exist_attempt_calls|].
    intros. apply to_exist_is_loop.
  - eapply HP; [apply to_not_exist_attempt_calls|].
    intros. apply to_not_exist_is_loop.
  - eapply HP; [apply to_be_empty_attempt_calls|].
    intros. apply to_be_empty_is_loop.
  - eapply HP; [apply to_not_be_empty_attempt_calls|].
    intros. apply to_not_be_empty_is_loop.
  - eapply HP; [apply poll_for_entries_try_calls|].
    intros. apply poll_for_entries_is_loop.
Qed.


(** X2: a polling wait calls the store at most [n + 1] times when [n]
    delays cover its timeout. *)
Theorem waits_poll_within json_loads waiter s3waiter key timeout
    poll_interval entries expected :
  every_polling_wait json_loads waiter s3waiter key timeout poll_interval
    entries expected
    (λ A run, polls_within run (Z.max 1 (math.ceil poll_interval)) timeout).
Proof.
  apply every_polling_wait_intro.
  intros A run attempt req timed_out Hcall Hrun n fuel O w HO Hcover.
  rewrite Hrun.
  set (delay := Z.max 1 (math.ceil poll_interval)) in *.
  set (deadline := (now w + timeout)%Q).
  destruct (le_lt_dec fuel (S n)) as [Hfew|Hmany].
  - destruct (poll_loop_polls attempt req timed_out delay deadline O Hcall
                (max_1_ge_1 _) fuel w) as (evs & Htr & Hpolls).
    rewrite (new_events_app _ _ _ Htr). lia.
  - replace fuel with (S n + (fuel - S n))%nat by lia.
    rewrite poll_loop_more_fuel.
    + destruct (poll_loop_polls attempt req timed_out delay deadline O Hcall
                  (max_1_ge_1 _) (S n) w) as (evs & Htr & Hpolls).
      by rewrite (new_events_app _ _ _ Htr).
    + apply (poll_loop_terminates attempt req timed_out delay deadline O
               Hcall (max_1_ge_1 _) HO).
      unfold deadline. revert Hcover.
      generalize (inject_Z (Z.of_nat n) * inject_Z delay)%Q. intros c Hc.
      lra.
Qed.

(** X3: the cadence of a polling wait is steady: every sleep but the last
    lasts exactly the clamped delay. *)
Theorem waits_keep_a_steady_cadence json_loads waiter s3waiter key timeout
    poll_interval entries expected :
  every_polling_wait json_loads waiter s3waiter key timeout poll_interval
    entries expected
    (λ A run, steady_cadence run (Z.max 1 (math.ceil poll_interval))).
Proof.
  apply every_polling_wait_intro.
  intros A run attempt req timed_out Hcall Hrun fuel O w HO seconds.
  rewrite Hrun.
  destruct (poll_loop_sleeps attempt req timed_out
              (Z.max 1 (math.ceil poll_interval)) (now w + timeout)%Q O
              Hcall (max_1_ge_1 _) HO fuel w)
    as (evs & Htr & _ & _ & Hsteady).
  rewrite (new_events_app _ _ _ Htr). apply Hsteady.
Qed.


(** ** The subset test, further *)

(** X5: the subset test reads the candidate only at the keys of the
    expectation: two candidates that agree there (both holding the same
    value, or both lacking the key) give the same answer, so fields of the
    candidate that the expectation does not mention are ignored. *)
Theorem matches_entries_reads_expected_keys_only
    (candidate candidate' expected : pydict) :
  (∀ k, is_Some (expected !! k) → candidate !! k = candidate' !! k) →
  DynamoDBItemExpectation._matches_entries candidate expected
  = DynamoDBItemExpectation._matches_entries candidate' expected
  ∧ S3ObjectExpectation._matches_entries candidate expected
    = S3ObjectExpectation._matches_entries candidate' expected.
Proof.
  intros Hagree.
  assert (DynamoDBItemExpectation._matches_entries candidate expected
          = DynamoDBItemExpectation._matches_entries candidate' expected);
    [|done].
  apply eq_true_iff_eq. rewrite !matches_entries_spec.
  split; intros H k v Hk; specialize (H k v Hk); unfold dict_get in *.
  - by rewrite <- (Hagree k (mk_is_Some _ _ Hk)).
  - by rewrite (Hagree k (mk_is_Some _ _ Hk)).
Qed.

(** X6: a candidate that matches an expectation matches every part of it,
    and it matches two expectations with no key in common taken together
    exactly when it matches each of them. *)
Theorem matches_entries_parts_and_union (candidate e1 e2 : pydict) :
  (e1 ⊆ e2 →
   DynamoDBItemExpectation._matches_entries candidate e2 = true →
   DynamoDBItemExpectation._matches_entries candidate e1 = true)
  ∧ (e1 ##ₘ e2 →
     DynamoDBItemExpectation._matches_entries candidate (e1 ∪ e2)
     = DynamoDBItemExpectation._matches_entries candidate e1
       && DynamoDBItemExpectation._matches_entries candidate e2).
Proof.
  split.
  - intros Hsub. rewrite !matches_entries_spec. intros H k v Hk.
    apply H. by eapply lookup_weaken.
  - intros Hdisj. apply eq_true_iff_eq.
    rewrite andb_true_iff, !matches_entries_spec. split.
    + intros H. split; intros k v Hk; apply H.
      * by apply lookup_union_Some_l.
      * by apply lookup_union_Some_r.
    + intros [H1 H2] k v Hk.
      apply lookup_union_Some in Hk as [Hk|Hk]; [by apply H1|by apply H2|done].
Qed.

Lemma poll_loop_ext {A} (attempt attempt' : M (option A)) timed_out delay
    deadline O :
  (∀ w, attempt O w = attempt' O w) → ∀ fuel w,
  poll_loop fuel attempt timed_out delay deadline O w
  = poll_loop fuel attempt' timed_out delay deadline O w.
Proof.
  intros Hsame. induction fuel as [|fuel IH]; intros w; [done|].
  rewrite !poll_loop_unfold, Hsame.
  destruct (attempt' O w) as [[[a|]|e|] w1]; try done.
  by apply wait_more_ext.
Qed.

Lemma matches_entries_empty item :
  DynamoDBItemExpectation._matches_entries item ∅ = true.
Proof.
  unfold DynamoDBItemExpectation._matches_entries, items.
  by rewrite map_to_list_empty.
Qed.

(** X7: for the item waiter an empty expectation is no expectation: the
    wait for [entries = {}] is, poll for poll, the wait for
    [entries = None]. *)
Theorem to_exist_empty_entries_is_existence_only
    (fuel : nat) (self : DynamoDBItemExpectation.t) (key : pydict)
    (timeout poll_interval : Q) (O : Outside) (w : World) :
  DynamoDBItemExpectation.to_exist fuel self key timeout poll_interval
    (Some ∅) O w
  = DynamoDBItemExpectation.to_exist fuel self key timeout poll_interval
      None O w.
Proof.
  rewrite !to_exist_is_loop. apply poll_loop_ext. clear w. intros w.
  rewrite !to_exist_attempt_run.
  destruct (get_item_reply _ _ _ _) as [[[item|]]|e]; cbn [Item];
    [|done..].
  by rewrite matches_entries_empty.
Qed.

(** ** The delay and the waiter configuration, further *)


(** X9: for a timeout that is a float below 2^53 seconds, the native waits
    get a single attempt whenever the timeout is no longer than the delay;
    when they get more,
    all attempts but the last fit strictly inside the timeout; and a longer
    timeout, a float below 2^53 seconds as well, never gets fewer
    attempts. *)
Theorem waiter_config_attempts (timeout poll_interval : Q) :
  float.is_float timeout → (timeout < 2 ^ 53)%Q →
  ∃ cfg,
    S3ObjectExpectation._build_waiter_config timeout poll_interval
    = Returns cfg
    ∧ ((timeout <= inject_Z (Delay cfg))%Q → MaxAttempts cfg = 1)
    ∧ ((1 < MaxAttempts cfg)%Z →
       (inject_Z (MaxAttempts cfg - 1) * inject_Z (Delay cfg) < timeout)%Q)
    ∧ (∀ longer,
         float.is_float longer → (longer < 2 ^ 53)%Q →
         (timeout <= longer)%Q →
         ∃ cfg',
           S3ObjectExpectation._build_waiter_config longer poll_interval
           = Returns cfg'
           ∧ Delay cfg' = Delay cfg
           ∧ (MaxAttempts cfg <= MaxAttempts cfg')%Z).
Proof.
  intros Hfloat Hbelow.
  eexists. split; [apply build_waiter_config_run|].
  cbn [Delay MaxAttempts].
  rewrite (max_attempts_exact timeout poll_interval Hfloat Hbelow).
  set (delay := Z.max 1 (math.ceil poll_interval)).
  assert (Hd : (1 <= inject_Z delay)%Q).
  { change 1%Q with (inject_Z 1). rewrite <- Zle_Qle. apply max_1_ge_1. }
  assert (He : ∀ t, (t / inject_Z delay * inject_Z delay == t)%Q).
  { intros t. field. intros Hz. lra. }
  unfold math.ceil. split_and!.
  - intros Ht.
    assert (Hq : (timeout / inject_Z delay <= 1)%Q).
    { apply Qle_shift_div_r; lra. }
    apply Qceiling_resp_le in Hq. change (Qceiling 1) with 1%Z in Hq. lia.
  - intros Hmany.
    set (quotient := (timeout / inject_Z delay)%Q) in *.
    rewrite Z.max_r by lia.
    pose proof (Qceiling_lt quotient) as Hlt.
    apply (Qmult_lt_compat_r _ _ (inject_Z delay)) in Hlt; [|lra].
    unfold quotient in Hlt at 2. by rewrite He in Hlt.
  - intros longer Hfloat' Hbelow' Hlonger. eexists.
    split; [apply build_waiter_config_run|]. cbn [Delay MaxAttempts].
    split; [done|].
    rewrite (max_attempts_exact longer poll_interval Hfloat' Hbelow').
    fold delay.
    assert (Hq : (timeout / inject_Z delay <= longer / inject_Z delay)%Q).
    { apply Qle_shift_div_l; [lra|]. by rewrite He. }
    apply Qceiling_resp_le in Hq. unfold math.ceil. lia.
Qed.

(** ** When the other waits return *)

Lemma poll_loop_found {A} (attempt : M (option A)) timed_out delay deadline
    fuel O w a w1 :
  attempt O w = (Return (Some a), w1) →
  poll_loop (S fuel) attempt timed_out delay deadline O w = (Return a, w1).
Proof. intros Hatt. by rewrite poll_loop_unfold, Hatt. Qed.

Lemma to_not_exist_attempt_run self key O w :
  to_not_exist_attempt self key O w
  = (match get_item_reply O (ticks w)
             (DynamoDBItemExpectation.name
                (DynamoDBItemExpectation._table self)) key with
     | Returns response =>
         match Item response with
         | None => Return (Some ())
         | Some _ => Return None
         end
     | Raises e => Raise e
     end,
     after_call O w
       (GetItem (DynamoDBItemExpectation.name
                   (DynamoDBItemExpectation._table self)) key)).
Proof.
  unfold to_not_exist_attempt, DynamoDBItemExpectation.get_item.
  rewrite bind_run, call_run.
  by destruct (get_item_reply _ _ _ _) as [[[item|]]|e].
Qed.

Lemma to_be_empty_attempt_run self O w :
  to_be_empty_attempt self O w
  = (match scan_reply O (ticks w)
             (DynamoDBItemExpectation.name
                (DynamoDBItemExpectation._table self)) with
     | Returns response =>
         if (default 0 (Count response) =? 0)%Z
         then Return (Some ()) else Return None
     | Raises e => Raise e
     end,
     after_call O w
       (Scan (DynamoDBItemExpectation.name
                (DynamoDBItemExpectation._table self)) "COUNT" 1)).
Proof.
  unfold to_be_empty_attempt, DynamoDBItemExpectation.scan.
  rewrite bind_run, call_run.
  destruct (scan_reply _ _ _) as [response|e]; [|done].
  by destruct (_ =? _)%Z.
Qed.

Lemma to_not_be_empty_attempt_run self O w :
  to_not_be_empty_attempt self O w
  = (match scan_reply O (ticks w)
             (DynamoDBItemExpectation.name
                (DynamoDBItemExpectation._table self)) with
     | Returns response =>
         if (default 0 (Count response) >? 0)%Z
         then Return (Some ()) else Return None
     | Raises e => Raise e
     end,
     after_call O w
       (Scan (DynamoDBItemExpectation.name
                (DynamoDBItemExpectation._table self)) "COUNT" 1)).
Proof.
  unfold to_not_be_empty_attempt, DynamoDBItemExpectation.scan.
  rewrite bind_run, call_run.
  destruct (scan_reply _ _ _) as [response|e]; [|done].
  by destruct (_ >? _)%Z.
Qed.

(** X10: [to_not_exist] returns on the first poll that finds no record under
    the key, in the world right after that poll; and when it returns, its
    last poll found no record. *)
Theorem to_not_exist_returns_when_the_record_is_gone
    (self : DynamoDBItemExpectation.t) (key : pydict) (timeout : Q) :
  let stored := DynamoDBItemExpectation.name
                  (DynamoDBItemExpectation._table self) in
  (∀ fuel delay deadline poll_interval O w,
     get_item_reply O (ticks w) stored key = Returns {| Item := None |} →
     DynamoDBItemExpectation.to_not_exist_loop (S fuel) self key timeout
       delay deadline O w
     = (Return (), after_call O w (GetItem stored key))
     ∧ DynamoDBItemExpectation.to_not_exist (S fuel) self key timeout
         poll_interval O w
       = (Return (), after_call O w (GetItem stored key)))
  ∧ (∀ fuel poll_interval O w w',
       DynamoDBItemExpectation.to_not_exist fuel self key timeout
         poll_interval O w = (Return (), w') →
       ∃ w0,
         get_item_reply O (ticks w0) stored key = Returns {| Item := None |}
         ∧ w' = after_call O w0 (GetItem stored key)).
Proof.
  cbv zeta. split.
  - intros fuel delay deadline poll_interval O w Hreply.
    assert (Hatt : to_not_exist_attempt self key O w
      = (Return (Some ()),
         after_call O w
           (GetItem (DynamoDBItemExpectation.name
                       (DynamoDBItemExpectation._table self)) key)))
      by (by rewrite to_not_exist_attempt_run, Hreply).
    split.
    + rewrite to_not_exist_loop_shape. by apply poll_loop_found.
    + rewrite to_not_exist_is_loop. by apply poll_loop_found.
  - intros fuel poll_interval O w w' Hrun.
    rewrite to_not_exist_is_loop in Hrun.
    apply poll_loop_returns in Hrun as [w0 Hatt].
    rewrite to_not_exist_attempt_run in Hatt. exists w0.
    destruct (get_item_reply _ _ _ _) as [[[item|]]|e]; try discriminate.
    by injection Hatt as <-.
Qed.

(** X11: [to_be_empty] returns on the first poll whose scan counts no item,
    and when it returns, the scan of its last poll counted none (a count of
    zero, or no count at all). *)
Theorem to_be_empty_returns_on_a_count_of_zero
    (self : DynamoDBItemExpectation.t) (timeout : Q) :
  let stored := DynamoDBItemExpectation.name
                  (DynamoDBItemExpectation._table self) in
  (∀ fuel delay deadline poll_interval O w response,
     scan_reply O (ticks w) stored = Returns response →
     default 0 (Count response) = 0 →
     DynamoDBItemExpectation.to_be_empty_loop (S fuel) self timeout delay
       deadline O w
     = (Return (), after_call O w (Scan stored "COUNT" 1))
     ∧ DynamoDBItemExpectation.to_be_empty (S fuel) self timeout
         poll_interval O w
       = (Return (), after_call O w (Scan stored "COUNT" 1)))
  ∧ (∀ fuel poll_interval O w w',
       DynamoDBItemExpectation.to_be_empty fuel self timeout poll_interval
         O w = (Return (), w') →
       ∃ w0 response,
         scan_reply O (ticks w0) stored = Returns response
         ∧ default 0 (Count response) = 0
         ∧ w' = after_call O w0 (Scan stored "COUNT" 1)).
Proof.
  cbv zeta. split.
  - intros fuel delay deadline poll_interval O w response Hreply Hcount.
    assert (Hatt : to_be_empty_attempt self O w
      = (Return (Some ()),
         after_call O w
           (Scan (DynamoDBItemExpectation.name
                    (DynamoDBItemExpectation._table self)) "COUNT" 1)))
      by (by rewrite to_be_empty_attempt_run, Hreply, Hcount).
    split.
    + rewrite to_be_empty_loop_shape. by apply poll_loop_found.
    + rewrite to_be_empty_is_loop. by apply poll_loop_found.
  - intros fuel poll_interval O w w' Hrun.
    rewrite to_be_empty_is_loop in Hrun.
    apply poll_loop_returns in Hrun as [w0 Hatt].
    rewrite to_be_empty_attempt_run in Hatt. exists w0.
    destruct (scan_reply _ _ _) as [response|e]; [|discriminate].
    exists response.
    destruct (default 0 (Count response) =? 0)%Z eqn:Hcount;
      [|discriminate].
    injection Hatt as <-. split_and!; [done| |done]. lia.
Qed.

(** X12: [to_not_be_empty] returns on the first poll whose scan counts an
    item, and when it returns, the scan of its last poll counted one. *)
Theorem to_not_be_empty_returns_on_a_positive_count
    (self : DynamoDBItemExpectation.t) (timeout : Q) :
  let stored := DynamoDBItemExpectation.name
                  (DynamoDBItemExpectation._table self) in
  (∀ fuel delay deadline poll_interval O w response count,
     scan_reply O (ticks w) stored = Returns response →
     Count response = Some count → (0 < count)%Z →
     DynamoDBItemExpectation.to_not_be_empty_loop (S fuel) self timeout
       delay deadline O w
     = (Return (), after_call O w (Scan stored "COUNT" 1))
     ∧ DynamoDBItemExpectation.to_not_be_empty (S fuel) self timeout
         poll_interval O w
       = (Return (), after_call O w (Scan stored "COUNT" 1)))
  ∧ (∀ fuel poll_interval O w w',
       DynamoDBItemExpectation.to_not_be_empty fuel self timeout
         poll_interval O w = (Return (), w') →
       ∃ w0 response count,
         scan_reply O (ticks w0) stored = Returns response
         ∧ Count response = Some count ∧ (0 < count)%Z
         ∧ w' = after_call O w0 (Scan stored "COUNT" 1)).
Proof.
  cbv zeta. split.
  - intros fuel delay deadline poll_interval O w response count Hreply
      Hcount Hpos.
    assert (Hatt : to_not_be_empty_attempt self O w
      = (Return (Some ()),
         after_call O w
           (Scan (DynamoDBItemExpectation.name
                    (DynamoDBItemExpectation._table self)) "COUNT" 1))).
    { rewrite to_not_be_empty_attempt_run, Hreply, Hcount.
      cbn [default from_option id].
      by destruct (Z.gtb_spec count 0); [|lia]. }
    split.
    + rewrite to_not_be_empty_loop_shape. by apply poll_loop_found.
    + rewrite to_not_be_empty_is_loop. by apply poll_loop_found.
  - intros fuel poll_interval O w w' Hrun.
    rewrite to_not_be_empty_is_loop in Hrun.
    apply poll_loop_returns in Hrun as [w0 Hatt].
    rewrite to_not_be_empty_attempt_run in Hatt. exists w0.
    destruct (scan_reply _ _ _) as [[[count|]]|e]; try discriminate.
    exists {| Count := Some count |}, count.
    cbn [Count default from_option id] in Hatt.
    destruct (Z.gtb_spec count 0); [|discriminate].
    injection Hatt as <-. split_and!; [done|done|lia|done].
Qed.

(** ** The object waiter, further *)

Lemma poll_for_entries_try_parsed json_loads self entries O w raw v :
  get_object_reply O (ticks w) (S3ObjectExpectation._bucket self)
    (S3ObjectExpectation._key self) = Returns raw →
  json_loads raw = Returns v →
  S3ObjectExpectation._poll_for_entries_try json_loads self entries O w
  = (match v with
     | VDict body =>
         if S3ObjectExpectation._matches_entries body entries
         then Return (Some body) else Return None
     | _ => Return None
     end,
     after_call O w (GetObject (S3ObjectExpectation._bucket self)
                               (S3ObjectExpectation._key self))).
Proof.
  intros Hreply Hparse.
  pose proof (poll_for_entries_body_run json_loads self entries O w) as Hbody.
  rewrite Hreply, Hparse in Hbody.
  unfold S3ObjectExpectation._poll_for_entries_try.
  destruct v as [| | | | | |body];
    try (by rewrite (try_except_return _ _ _ _ _ _ Hbody)).
  destruct (S3ObjectExpectation._matches_entries body entries);
    by rewrite (try_except_return _ _ _ _ _ _ Hbody).
Qed.

(** X13: the content-matching wait returns on the first poll whose object
    parses to a mapping that matches the entries, and returns that whole
    mapping; and whatever it returns is the mapping its last poll retrieved
    and parsed, and matches the entries. *)
Theorem poll_for_entries_returns_the_parsed_body
    (json_loads : list Byte.byte → reply pyval)
    (self : S3ObjectExpectation.t) (timeout : Q) (entries : pydict) :
  let bucket := S3ObjectExpectation._bucket self in
  let key := S3ObjectExpectation._key self in
  (∀ fuel poll_interval O w raw body,
     get_object_reply O (ticks w) bucket key = Returns raw →
     json_loads raw = Returns (VDict body) →
     S3ObjectExpectation._matches_entries body entries = true →
     S3ObjectExpectation.to_exist json_loads (S fuel) self timeout
       poll_interval (Some entries) O w
     = (Return body, after_call O w (GetObject bucket key)))
  ∧ (∀ fuel poll_interval O w body w',
       S3ObjectExpectation.to_exist json_loads fuel self timeout
         poll_interval (Some entries) O w = (Return body, w') →
       ∃ w0 raw,
         get_object_reply O (ticks w0) bucket key = Returns raw
         ∧ json_loads raw = Returns (VDict body)
         ∧ S3ObjectExpectation._matches_entries body entries = true
         ∧ w' = after_call O w0 (GetObject bucket key)).
Proof.
  cbv zeta. split.
  - intros fuel poll_interval O w raw body Hreply Hparse Hmatch.
    cbn [S3ObjectExpectation.to_exist]. rewrite poll_for_entries_is_loop.
    apply poll_loop_found.
    by rewrite (poll_for_entries_try_parsed _ _ _ _ _ raw (VDict body)),
         Hmatch.
  - intros fuel poll_interval O w body w' Hrun.
    cbn [S3ObjectExpectation.to_exist] in Hrun.
    rewrite poll_for_entries_is_loop in Hrun.
    apply poll_loop_returns in Hrun as [w0 Hatt].
    exists w0.
    pose proof (poll_for_entries_body_run json_loads self entries O w0)
      as Hbody.
    unfold S3ObjectExpectation._poll_for_entries_try in Hatt.
    destruct (get_object_reply O (ticks w0) _ _) as [raw|e].
    + exists raw. destruct (json_loads raw) as [v|e].
      * destruct v as [| | | | | |parsed];
          try (rewrite (try_except_return _ _ _ _ _ _ Hbody) in Hatt;
               discriminate).
        destruct (S3ObjectExpectation._matches_entries parsed entries)
          eqn:Hmatch;
          rewrite (try_except_return _ _ _ _ _ _ Hbody) in Hatt;
          [|discriminate].
        by injection Hatt as <- <-.
      * rewrite (try_except_raise _ _ _ _ _ _ Hbody) in Hatt.
        destruct (S3ObjectExpectation._poll_for_entries_except e)
          as [h|] eqn:Hh; [|discriminate].
        unfold S3ObjectExpectation._poll_for_entries_except in Hh.
        destruct (isinstance e class_ClientError).
        { injection Hh as <-.
          by destruct (S3ObjectExpectation.not_in _ _). }
        destruct (_ || _); [|discriminate]. by injection Hh as <-.
    + rewrite (try_except_raise _ _ _ _ _ _ Hbody) in Hatt.
      destruct (S3ObjectExpectation._poll_for_entries_except e)
        as [h|] eqn:Hh; [|discriminate].
      unfold S3ObjectExpectation._poll_for_entries_except in Hh.
      destruct (isinstance e class_ClientError).
      { injection Hh as <-.
        by destruct (S3ObjectExpectation.not_in _ _). }
      destruct (_ || _); [|discriminate]. by injection Hh as <-.
Qed.

(** A poll whose parsed body is not a mapping finds nothing. *)
Lemma not_a_dict_try json_loads self entries O w raw v :
  get_object_reply O (ticks w) (S3ObjectExpectation._bucket self)
    (S3ObjectExpectation._key self) = Returns raw →
  json_loads raw = Returns v →
  (∀ body, v ≠ VDict body) →
  S3ObjectExpectation._poll_for_entries_try json_loads self entries O w
  = (Return None,
     after_call O w (GetObject (S3ObjectExpectation._bucket self)
                               (S3ObjectExpectation._key self))).
Proof.
  intros Hreply Hparse Hnot.
  rewrite (poll_for_entries_try_parsed _ _ _ _ _ raw v Hreply Hparse).
  destruct v; try done. by destruct (Hnot d).
Qed.

(** X14: for the object waiter an empty expectation is not "no expectation":
    with [entries = {}] the wait fetches and parses the object and returns
    on the first poll whose object parses to a mapping, whatever it holds;
    an object that parses to anything else (a list, a number, [null]) is
    never a match, for any entries, so that with nothing left on the clock
    the wait ends in the timeout error although the object is there. *)
Theorem poll_for_entries_needs_a_mapping
    (json_loads : list Byte.byte → reply pyval)
    (self : S3ObjectExpectation.t) (timeout poll_interval : Q)
    (fuel : nat) (O : Outside) (w : World) (raw : list Byte.byte)
    (v : pyval) :
  let bucket := S3ObjectExpectation._bucket self in
  let key := S3ObjectExpectation._key self in
  get_object_reply O (ticks w) bucket key = Returns raw →
  json_loads raw = Returns v →
  (∀ body, v = VDict body →
     S3ObjectExpectation.to_exist json_loads (S fuel) self timeout
       poll_interval (Some ∅) O w
     = (Return body, after_call O w (GetObject bucket key)))
  ∧ ((∀ body, v ≠ VDict body) → (timeout <= 0)%Q → punctual O →
     ∀ entries,
       S3ObjectExpectation.to_exist json_loads (S fuel) self timeout
         poll_interval (Some entries) O w
       = (Raise (S3WaitTimeoutError bucket key timeout),
          after_call O w (GetObject bucket key))).
Proof.
  cbv zeta. intros Hreply Hparse. split.
  - intros body ->.
    cbn [S3ObjectExpectation.to_exist]. rewrite poll_for_entries_is_loop.
    apply poll_loop_found.
    rewrite (poll_for_entries_try_parsed _ _ _ _ _ raw (VDict body) Hreply
               Hparse).
    change (S3ObjectExpectation._matches_entries body ∅)
      with (DynamoDBItemExpectation._matches_entries body ∅).
    by rewrite (matches_entries_empty body).
  - intros Hnot Htimeout HO entries.
    cbn [S3ObjectExpectation.to_exist]. rewrite poll_for_entries_is_loop.
    rewrite (poll_loop_zero_timeout _ _ _ _ _ _ _ _
               (poll_for_entries_try_calls json_loads self entries)
               (max_1_ge_1 _) HO); [|lra].
    by rewrite (not_a_dict_try _ _ _ _ _ raw v Hreply Hparse Hnot).
Qed.

(** X15: without entries [to_exist] never fetches the object: it calls the
    native waiter and, only when that returns, [head_object], whose result
    it returns.  What [head_object] raises then (a 404 for an object
    deleted in between, say) reaches the caller as it is, not as a timeout
    error; so does whatever the native waiter raises that is not a
    [WaiterError]; and in none of these cases is anything slept. *)
Theorem to_exist_without_entries_is_wait_then_head
    (json_loads : list Byte.byte → reply pyval) (fuel : nat)
    (self : S3ObjectExpectation.t) (timeout poll_interval : Q)
    (O : Outside) (w : World) :
  let bucket := S3ObjectExpectation._bucket self in
  let key := S3ObjectExpectation._key self in
  ∃ cfg,
    S3ObjectExpectation._build_waiter_config timeout poll_interval
    = Returns cfg
    ∧ let w1 := after_call O w (Wait "object_exists" bucket key cfg) in
      let run := S3ObjectExpectation.to_exist json_loads fuel self timeout
                   poll_interval None O w in
      (∀ metadata,
         wait_reply O (ticks w) "object_exists" bucket key cfg = Returns () →
         head_object_reply O (ticks w1) bucket key = Returns metadata →
         run = (Return metadata, after_call O w1 (HeadObject bucket key)))
      ∧ (∀ exc,
           wait_reply O (ticks w) "object_exists" bucket key cfg
           = Returns () →
           head_object_reply O (ticks w1) bucket key = Raises exc →
           run = (Raise exc, after_call O w1 (HeadObject bucket key)))
      ∧ (∀ exc,
           wait_reply O (ticks w) "object_exists" bucket key cfg
           = Raises exc →
           isinstance exc class_WaiterError = false →
           run = (Raise exc, w1))
      ∧ slept (new_events w run.2) = []
      ∧ (∀ req, req ∈ asked (new_events w run.2) →
           req = Wait "object_exists" bucket key cfg
           ∨ req = HeadObject bucket key).
Proof.
  cbv zeta. eexists. split; [apply build_waiter_config_run|].
  rewrite (to_exist_native_run json_loads fuel self timeout poll_interval
             O w _ (build_waiter_config_run timeout poll_interval)).
  set (cfg := {| Delay := _; MaxAttempts := _ |}).
  set (bucket := S3ObjectExpectation._bucket self).
  set (key := S3ObjectExpectation._key self).
  set (w1 := after_call O w (Wait "object_exists" bucket key cfg)).
  split_and!.
  - intros metadata -> ->. reflexivity.
  - intros exc -> ->. reflexivity.
  - intros exc -> ->. reflexivity.
  - destruct (wait_reply _ _ _ _ _ _) as [[]|exc]; cbn [snd].
    + rewrite (new_events_app w _
                 [Called (Wait "object_exists" bucket key cfg) (now w)
                    (now w1);
                  Called (HeadObject bucket key) (now w1)
                    (now w1 + latency O (ticks w1))%Q]); [done|].
      cbn [trace after_call w1]. by rewrite <- app_assoc.
    + by rewrite (new_events_app w _
                    [Called (Wait "object_exists" bucket key cfg) (now w)
                       (now w1)]).
  - intros req. destruct (wait_reply _ _ _ _ _ _) as [[]|exc]; cbn [snd].
    + rewrite (new_events_app w _
                 [Called (Wait "object_exists" bucket key cfg) (now w)
                    (now w1);
                  Called (HeadObject bucket key) (now w1)
                    (now w1 + latency O (ticks w1))%Q]).
      * cbn [asked]. rewrite !elem_of_cons, elem_of_nil. tauto.
      * cbn [trace after_call w1]. by rewrite <- app_assoc.
    + rewrite (new_events_app w _
                 [Called (Wait "object_exists" bucket key cfg) (now w)
                    (now w1)]); [|done].
      cbn [asked]. rewrite !elem_of_cons, elem_of_nil. tauto.
Qed.

(** X16: [to_not_exist] of the object waiter is one call to the native
    waiter and nothing else: it returns exactly when that call returns, and
    what it raises is the typed timeout error for a [WaiterError] and the
    very exception of the native waiter otherwise. *)
Theorem to_not_exist_is_one_native_wait
    (self : S3ObjectExpectation.t) (timeout poll_interval : Q)
    (O : Outside) (w : World) :
  let bucket := S3ObjectExpectation._bucket self in
  let key := S3ObjectExpectation._key self in
  let run := S3ObjectExpectation.to_not_exist self timeout poll_interval
               O w in
  ∃ cfg,
    S3ObjectExpectation._build_waiter_config timeout poll_interval
    = Returns cfg
    ∧ let answer := wait_reply O (ticks w) "object_not_exists" bucket key
                      cfg in
      new_events w run.2
      = [Called (Wait "object_not_exists" bucket key cfg) (now w)
           (now w + latency O (ticks w))%Q]
      ∧ (run.1 = Return () ↔ answer = Returns ())
      ∧ (∀ e, run.1 = Raise e →
           ∃ exc, answer = Raises exc
             ∧ e = if isinstance exc class_WaiterError
                   then S3WaitTimeoutError bucket key timeout
                   else exc)
      ∧ run.1 ≠ Running.
Proof.
  cbv zeta. eexists. split; [apply build_waiter_config_run|].
  rewrite (to_not_exist_run self timeout poll_interval O w _
             (build_waiter_config_run timeout poll_interval)).
  cbn [fst snd]. split_and!.
  - by apply new_events_app.
  - destruct (wait_reply _ _ _ _ _ _) as [[]|exc]; [done|].
    split; [|done]. by destruct (isinstance exc class_WaiterError).
  - intros e He. destruct (wait_reply _ _ _ _ _ _) as [[]|exc]; [done|].
    exists exc. split; [done|].
    destruct (isinstance exc class_WaiterError); by injection He.
  - destruct (wait_reply _ _ _ _ _ _) as [[]|exc]; [done|].
    by destruct (isinstance exc class_WaiterError).
Qed.

(** ** Opposite waits, and stores that only fail in passing *)

(** X18: with nothing on the clock a wait is a probe, and opposite waits
    give opposite answers to the same state of the table: of [to_be_empty]
    and [to_not_be_empty] one returns and the other raises its timeout
    error (for a count that is not negative), and so do [to_exist] without
    entries and [to_not_exist]. *)
Theorem opposite_waits_give_opposite_answers
    (fuel : nat) (self : DynamoDBItemExpectation.t) (key : pydict)
    (timeout poll_interval : Q) (O : Outside) (w : World) :
  (timeout <= 0)%Q → punctual O →
  let stored := DynamoDBItemExpectation.name
                  (DynamoDBItemExpectation._table self) in
  let table := DynamoDBItemExpectation._table_name self in
  (∀ response,
     scan_reply O (ticks w) stored = Returns response →
     (0 <= default 0 (Count response))%Z →
     let empty := DynamoDBItemExpectation.to_be_empty (S fuel) self timeout
                    poll_interval O w in
     let not_empty := DynamoDBItemExpectation.to_not_be_empty (S fuel) self
                        timeout poll_interval O w in
     (empty.1 = Return ()
      ∧ not_empty.1
        = Raise (DynamoDBWaitTimeoutError table None timeout
                   (Some (DynamoDBItemExpectation.to_not_be_empty_message
                            self timeout))))
     ∨ (not_empty.1 = Return ()
        ∧ empty.1
          = Raise (DynamoDBWaitTimeoutError table None timeout
                     (Some (DynamoDBItemExpectation.to_be_empty_message
                              self timeout)))))
  ∧ (∀ response,
       get_item_reply O (ticks w) stored key = Returns response →
       let there := DynamoDBItemExpectation.to_exist (S fuel) self key
                      timeout poll_interval None O w in
       let gone := DynamoDBItemExpectation.to_not_exist (S fuel) self key
                     timeout poll_interval O w in
       (∃ item, Item response = Some item
          ∧ there.1 = Return item
          ∧ gone.1 = Raise (DynamoDBWaitTimeoutError table (Some key)
                              timeout None))
       ∨ (Item response = None
          ∧ gone.1 = Return ()
          ∧ there.1 = Raise (DynamoDBWaitTimeoutError table (Some key)
                               timeout None))).
Proof.
  intros Htimeout HO. cbv zeta.
  assert (Hdead : (now w + timeout <= now w)%Q) by lra.
  split.
  - intros response Hreply Hcount.
    rewrite to_be_empty_is_loop, to_not_be_empty_is_loop.
    rewrite (poll_loop_zero_timeout _ _ _ _ _ _ _ _
               (to_be_empty_attempt_calls self) (max_1_ge_1 _) HO Hdead).
    rewrite (poll_loop_zero_timeout _ _ _ _ _ _ _ _
               (to_not_be_empty_attempt_calls self) (max_1_ge_1 _) HO Hdead).
    rewrite to_be_empty_attempt_run, to_not_be_empty_attempt_run, Hreply.
    cbn [fst].
    destruct (Z.eqb_spec (default 0 (Count response)) 0) as [Hz|Hz];
      destruct (Z.gtb_spec (default 0 (Count response)) 0) as [Hp|Hp];
      cbn [verdict]; try lia; [by left|by right].
  - intros response Hreply.
    rewrite to_exist_is_loop, to_not_exist_is_loop.
    rewrite (poll_loop_zero_timeout _ _ _ _ _ _ _ _
               (to_exist_attempt_calls self key None) (max_1_ge_1 _) HO
               Hdead).
    rewrite (poll_loop_zero_timeout _ _ _ _ _ _ _ _
               (to_not_exist_attempt_calls self key) (max_1_ge_1 _) HO
               Hdead).
    rewrite to_exist_attempt_run, to_not_exist_attempt_run, Hreply.
    cbn [fst]. destruct (Item response) as [item|]; cbn [verdict].
    + left. by exists item.
    + by right.
Qed.

Lemma poll_loop_raises_timeout_only {A} (attempt : M (option A)) req
    timed_out delay deadline fuel O w e w' :
  single_call attempt req → (1 <= delay)%Z →
  (∀ w0 e0, (attempt O w0).1 ≠ Raise e0) →
  poll_loop fuel attempt timed_out delay deadline O w = (Raise e, w') →
  e = timed_out.
Proof.
  intros Hcall Hdelay Hquiet Hrun.
  destruct (poll_loop_ends attempt req timed_out delay deadline fuel Hcall
              Hdelay O w) as [w0 Hverdict].
  { by rewrite Hrun. }
  rewrite Hrun in Hverdict. cbn [fst] in Hverdict.
  specialize (Hquiet w0).
  destruct ((attempt O w0).1) as [[a|]|e0|]; try discriminate.
  - by injection Hverdict.
  - by destruct (Hquiet e0).
Qed.

(** X19: when the store and the parser fail only in the ways the loop
    absorbs (the object is not there, or its body does not decode or
    parse), the content-matching wait raises nothing but its own timeout
    error: a missing object ends in [S3WaitTimeoutError], never in a
    [ClientError]. *)
Theorem poll_for_entries_raises_only_its_timeout
    (json_loads : list Byte.byte → reply pyval)
    (self : S3ObjectExpectation.t) (timeout poll_interval : Q)
    (entries : pydict) (fuel : nat) (O : Outside) (w w' : World) (e : exn) :
  (∀ w0 e0, try_raises json_loads self O w0 e0 → absorbed_as_stated e0) →
  S3ObjectExpectation.to_exist json_loads fuel self timeout poll_interval
    (Some entries) O w = (Raise e, w') →
  e = S3WaitTimeoutError (S3ObjectExpectation._bucket self)
        (S3ObjectExpectation._key self) timeout.
Proof.
  intros Honly Hrun. cbn [S3ObjectExpectation.to_exist] in Hrun.
  rewrite poll_for_entries_is_loop in Hrun.
  eapply poll_loop_raises_timeout_only;
    [apply poll_for_entries_try_calls|apply max_1_ge_1| |exact Hrun].
  intros w0 e0 Hraise.
  pose proof (poll_for_entries_body_run json_loads self entries O w0)
    as Hbody.
  unfold S3ObjectExpectation._poll_for_entries_try in Hraise.
  destruct (get_object_reply O (ticks w0) _ _) as [raw|e1] eqn:Hreply.
  - destruct (json_loads raw) as [v|e1] eqn:Hparse.
    + destruct v as [| | | | | |body];
        try (rewrite (try_except_return _ _ _ _ _ _ Hbody) in Hraise;
             discriminate).
      destruct (S3ObjectExpectation._matches_entries body entries);
        rewrite (try_except_return _ _ _ _ _ _ Hbody) in Hraise;
        discriminate.
    + rewrite (try_except_raise _ _ _ _ _ _ Hbody) in Hraise.
      assert (Habs : absorbed_as_stated e1).
      { apply (Honly w0). right. exists raw. by rewrite Hreply. }
      by rewrite (except_absorbs e1 Habs) in Hraise.
  - rewrite (try_except_raise _ _ _ _ _ _ Hbody) in Hraise.
    assert (Habs : absorbed_as_stated e1).
    { apply (Honly w0). left. by rewrite Hreply. }
    by rewrite (except_absorbs e1 Habs) in Hraise.
Qed.

(** X20: the item waiter absorbs nothing: whatever [get_item] or [scan]
    raises at the first poll (a missing table, a throttled request) ends the
    wait at once with that very exception, in the world right after the
    failed call, also for the waits that wait for something to be gone. *)
Theorem item_waits_pass_store_errors_on
    (fuel : nat) (self : DynamoDBItemExpectation.t) (key : pydict)
    (timeout poll_interval : Q) (entries : option pydict)
    (O : Outside) (w : World) (e : exn) :
  let stored := DynamoDBItemExpectation.name
                  (DynamoDBItemExpectation._table self) in
  (get_item_reply O (ticks w) stored key = Raises e →
   DynamoDBItemExpectation.to_exist (S fuel) self key timeout poll_interval
     entries O w
   = (Raise e, after_call O w (GetItem stored key))
   ∧ DynamoDBItemExpectation.to_not_exist (S fuel) self key timeout
       poll_interval O w
     = (Raise e, after_call O w (GetItem stored key)))
  ∧ (scan_reply O (ticks w) stored = Raises e →
     DynamoDBItemExpectation.to_be_empty (S fuel) self timeout poll_interval
       O w
     = (Raise e, after_call O w (Scan stored "COUNT" 1))
     ∧ DynamoDBItemExpectation.to_not_be_empty (S fuel) self timeout
         poll_interval O w
       = (Raise e, after_call O w (Scan stored "COUNT" 1))).
Proof.
  cbv zeta. split; intros Hreply; split.
  - by rewrite to_exist_is_loop, poll_loop_unfold, to_exist_attempt_run,
      Hreply.
  - by rewrite to_not_exist_is_loop, poll_loop_unfold,
      to_not_exist_attempt_run, Hreply.
  - by rewrite to_be_empty_is_loop, poll_loop_unfold,
      to_be_empty_attempt_run, Hreply.
  - by rewrite to_not_be_empty_is_loop, poll_loop_unfold,
      to_not_be_empty_attempt_run, Hreply.
Qed.

(** ** The further properties at work *)


Lemma waits_poll_within_witness :
  punctual vacant
  ∧ (2 <= inject_Z (Z.of_nat 2) * inject_Z (Z.max 1 (math.ceil 1)))%Q
  ∧ (polls
       (new_events start
          (DynamoDBItemExpectation.to_not_exist 9 users user_1 2 1
             (holding alice) start).2) <= 3)%nat.
Proof.
  assert (Hcover :
    (2 <= inject_Z (Z.of_nat 2) * inject_Z (Z.max 1 (math.ceil 1)))%Q)
    by discriminate.
  assert (HO : punctual (holding alice)) by exact vacant_punctual.
  split; [exact vacant_punctual|]. split; [exact Hcover|].
  destruct (waits_poll_within unparsable users report user_1 2 1 None ∅)
    as (_ & Hwait & _).
  exact (Hwait 2%nat 9%nat (holding alice) start HO Hcover).
Defined.

Lemma waits_keep_a_steady_cadence_witness :
  punctual vacant
  ∧ removelast
      (slept (new_events start
                (DynamoDBItemExpectation.to_be_empty 9 users (5 # 2) (1 # 2)
                   (holding alice) start).2))
    = [1%Q; 1%Q]
  ∧ ∀ seconds,
      seconds ∈ removelast
        (slept (new_events start
                  (DynamoDBItemExpectation.to_be_empty 9 users (5 # 2)
                     (1 # 2) (holding alice) start).2)) →
      seconds = inject_Z (Z.max 1 (math.ceil (1 # 2))).
Proof.
  assert (HO : punctual (holding alice)) by exact vacant_punctual.
  split; [exact vacant_punctual|]. split; [vm_compute; reflexivity|].
  destruct (waits_keep_a_steady_cadence unparsable users report user_1
              (5 # 2) (1 # 2) None ∅) as (_ & _ & Hwait & _).
  exact (Hwait 9%nat (holding alice) start HO).
Defined.



Lemma matches_entries_reads_expected_keys_only_witness :
  (∀ k, is_Some (({[ "name" := VStr "Alice" ]} : pydict) !! k) →
        alice !! k = (<[ "age" := VInt 30 ]> alice : pydict) !! k)
  ∧ DynamoDBItemExpectation._matches_entries alice
      {[ "name" := VStr "Alice" ]}
    = DynamoDBItemExpectation._matches_entries (<[ "age" := VInt 30 ]> alice)
        {[ "name" := VStr "Alice" ]}.
Proof.
  assert (Hagree : ∀ k,
    is_Some (({[ "name" := VStr "Alice" ]} : pydict) !! k) →
    alice !! k = (<[ "age" := VInt 30 ]> alice : pydict) !! k).
  { intros k [v Hk]. destruct (decide (k = "name")) as [->|Hne].
    - vm_compute. reflexivity.
    - rewrite lookup_singleton_ne in Hk by done. discriminate. }
  split; [exact Hagree|].
  destruct (matches_entries_reads_expected_keys_only alice
              (<[ "age" := VInt 30 ]> alice) {[ "name" := VStr "Alice" ]}
              Hagree) as [Hsame _].
  exact Hsame.
Defined.

Lemma matches_entries_parts_and_union_witness :
  ({[ "pk" := VStr "user-1" ]} : pydict) ##ₘ {[ "name" := VStr "Alice" ]}
  ∧ DynamoDBItemExpectation._matches_entries alice
      ({[ "pk" := VStr "user-1" ]} ∪ {[ "name" := VStr "Alice" ]})
    = DynamoDBItemExpectation._matches_entries alice
        {[ "pk" := VStr "user-1" ]}
      && DynamoDBItemExpectation._matches_entries alice
           {[ "name" := VStr "Alice" ]}.
Proof.
  assert (Hdisj : ({[ "pk" := VStr "user-1" ]} : pydict)
                  ##ₘ {[ "name" := VStr "Alice" ]}).
  { apply map_disjoint_singleton_l. by apply lookup_singleton_ne. }
  split; [exact Hdisj|].
  destruct (matches_entries_parts_and_union alice
              {[ "pk" := VStr "user-1" ]} {[ "name" := VStr "Alice" ]})
    as [_ Hunion].
  exact (Hunion Hdisj).
Defined.


Lemma waiter_config_attempts_witness :
  float.is_float 3 ∧ (3 < 2 ^ 53)%Q
  ∧ ∃ cfg,
      S3ObjectExpectation._build_waiter_config 3 5 = Returns cfg
      ∧ (3 <= inject_Z (Delay cfg))%Q
      ∧ MaxAttempts cfg = 1.
Proof.
  assert (Hfloat : float.is_float 3) by (vm_compute; reflexivity).
  assert (Ht : (3 < 2 ^ 53)%Q) by (vm_compute; reflexivity).
  split_and!; [exact Hfloat|exact Ht|].
  destruct (waiter_config_attempts 3 5 Hfloat Ht)
    as (cfg & Hcfg & Hone & _).
  exists cfg. split; [exact Hcfg|].
  assert (Hshort : (3 <= inject_Z (Delay cfg))%Q).
  { assert (Hrun : S3ObjectExpectation._build_waiter_config 3 5
                   = Returns {| Delay := 5; MaxAttempts := 1 |})
      by (vm_compute; reflexivity).
    rewrite Hrun in Hcfg. injection Hcfg as <-. discriminate. }
  split; [exact Hshort|exact (Hone Hshort)].
Defined.

Lemma to_not_exist_returns_when_the_record_is_gone_witness :
  get_item_reply vacant (ticks start) "users" user_1
  = Returns {| Item := None |}
  ∧ DynamoDBItemExpectation.to_not_exist 1 users user_1 30 5 vacant start
    = (Return (), after_call vacant start (GetItem "users" user_1)).
Proof.
  split; [reflexivity|].
  destruct (to_not_exist_returns_when_the_record_is_gone users user_1 30)
    as [Hgone _].
  destruct (Hgone 0%nat 5 30%Q 5%Q vacant start eq_refl) as [_ Hrun].
  exact Hrun.
Defined.

Lemma to_be_empty_returns_on_a_count_of_zero_witness :
  scan_reply vacant (ticks start) "users" = Returns {| Count := Some 0 |}
  ∧ DynamoDBItemExpectation.to_be_empty 1 users 30 5 vacant start
    = (Return (), after_call vacant start (Scan "users" "COUNT" 1)).
Proof.
  split; [reflexivity|].
  destruct (to_be_empty_returns_on_a_count_of_zero users 30) as [Hzero _].
  destruct (Hzero 0%nat 5 30%Q 5%Q vacant start {| Count := Some 0 |}
              eq_refl eq_refl) as [_ Hrun].
  exact Hrun.
Defined.

Lemma to_not_be_empty_returns_on_a_positive_count_witness :
  scan_reply (holding alice) (ticks start) "users"
  = Returns {| Count := Some 1 |}
  ∧ (0 < 1)%Z
  ∧ DynamoDBItemExpectation.to_not_be_empty 1 users 30 5 (holding alice)
      start
    = (Return (), after_call (holding alice) start (Scan "users" "COUNT" 1)).
Proof.
  split; [reflexivity|]. split; [reflexivity|].
  destruct (to_not_be_empty_returns_on_a_positive_count users 30)
    as [Hsome _].
  destruct (Hsome 0%nat 5 30%Q 5%Q (holding alice) start
              {| Count := Some 1 |} 1 eq_refl eq_refl eq_refl)
    as [_ Hrun].
  exact Hrun.
Defined.

Lemma poll_for_entries_returns_the_parsed_body_witness :
  get_object_reply (serving []) (ticks start) "reports" "daily.json"
  = Returns []
  ∧ parsed_as (VDict alice) [] = Returns (VDict alice)
  ∧ S3ObjectExpectation._matches_entries alice {[ "name" := VStr "Alice" ]}
    = true
  ∧ S3ObjectExpectation.to_exist (parsed_as (VDict alice)) 1 report 30 5
      (Some {[ "name" := VStr "Alice" ]}) (serving []) start
    = (Return alice,
       after_call (serving []) start (GetObject "reports" "daily.json")).
Proof.
  assert (Hmatch : S3ObjectExpectation._matches_entries alice
                     {[ "name" := VStr "Alice" ]} = true)
    by (vm_compute; reflexivity).
  split; [reflexivity|]. split; [reflexivity|]. split; [exact Hmatch|].
  destruct (poll_for_entries_returns_the_parsed_body
              (parsed_as (VDict alice)) report 30
              {[ "name" := VStr "Alice" ]}) as [Hfound _].
  exact (Hfound 0%nat 5%Q (serving []) start [] alice eq_refl eq_refl
           Hmatch).
Defined.

Lemma poll_for_entries_needs_a_mapping_witness :
  get_object_reply (serving []) (ticks start) "reports" "daily.json"
  = Returns []
  ∧ parsed_as (VList [VInt 1]) [] = Returns (VList [VInt 1])
  ∧ (∀ body, VList [VInt 1] ≠ VDict body)
  ∧ (0 <= 0)%Q ∧ punctual (serving [])
  ∧ S3ObjectExpectation.to_exist (parsed_as (VList [VInt 1])) 1 report 0 5
      (Some ∅) (serving []) start
    = (Raise (S3WaitTimeoutError "reports" "daily.json" 0),
       after_call (serving []) start (GetObject "reports" "daily.json")).
Proof.
  assert (Hnot : ∀ body, VList [VInt 1] ≠ VDict body) by discriminate.
  assert (Ht : (0 <= 0)%Q) by discriminate.
  assert (HO : punctual (serving [])) by exact vacant_punctual.
  split; [reflexivity|]. split; [reflexivity|]. split; [exact Hnot|].
  split; [exact Ht|]. split; [exact HO|].
  destruct (poll_for_entries_needs_a_mapping (parsed_as (VList [VInt 1]))
              report 0 5 0 (serving []) start [] (VList [VInt 1])
              eq_refl eq_refl) as [_ Hlist].
  exact (Hlist Hnot Ht HO ∅).
Defined.

Lemma to_exist_without_entries_is_wait_then_head_witness :
  ∃ cfg,
    S3ObjectExpectation._build_waiter_config 30 5 = Returns cfg
    ∧ wait_reply (serving []) (ticks start) "object_exists" "reports"
        "daily.json" cfg = Returns ()
    ∧ head_object_reply (serving [])
        (ticks (after_call (serving []) start
                  (Wait "object_exists" "reports" "daily.json" cfg)))
        "reports" "daily.json" = Returns ∅
    ∧ S3ObjectExpectation.to_exist unparsable 0 report 30 5 None
        (serving []) start
      = (Return ∅,
         after_call (serving [])
           (after_call (serving []) start
              (Wait "object_exists" "reports" "daily.json" cfg))
           (HeadObject "reports" "daily.json")).
Proof.
  destruct (to_exist_without_entries_is_wait_then_head unparsable 0 report
              30 5 (serving []) start) as (cfg & Hcfg & Hhead & _).
  exists cfg. split; [exact Hcfg|].
  split; [reflexivity|]. split; [reflexivity|].
  exact (Hhead ∅ eq_refl eq_refl).
Defined.

Lemma to_not_exist_is_one_native_wait_witness :
  ∃ cfg,
    S3ObjectExpectation._build_waiter_config 30 5 = Returns cfg
    ∧ wait_reply (serving []) (ticks start) "object_not_exists" "reports"
        "daily.json" cfg = Returns ()
    ∧ (S3ObjectExpectation.to_not_exist report 30 5 (serving []) start).1
      = Return ().
Proof.
  destruct (to_not_exist_is_one_native_wait report 30 5 (serving []) start)
    as (cfg & Hcfg & _ & [_ Hreturns] & _).
  exists cfg. split; [exact Hcfg|].
  split; [reflexivity|]. exact (Hreturns eq_refl).
Defined.

Lemma opposite_waits_give_opposite_answers_witness :
  (0 <= 0)%Q ∧ punctual vacant
  ∧ scan_reply vacant (ticks start) "users" = Returns {| Count := Some 0 |}
  ∧ (DynamoDBItemExpectation.to_be_empty 1 users 0 5 vacant start).1
    = Return ()
  ∧ (DynamoDBItemExpectation.to_not_be_empty 1 users 0 5 vacant start).1
    = Raise (DynamoDBWaitTimeoutError "users" None 0
               (Some (DynamoDBItemExpectation.to_not_be_empty_message users
                        0))).
Proof.
  assert (Ht : (0 <= 0)%Q) by discriminate.
  split; [exact Ht|]. split; [exact vacant_punctual|].
  split; [reflexivity|].
  destruct (opposite_waits_give_opposite_answers 0 users user_1 0 5 vacant
              start Ht vacant_punctual) as [Hscan _].
  destruct (Hscan {| Count := Some 0 |} eq_refl ltac:(discriminate))
    as [[Hempty Hnot]|[Hnot Hempty]].
  - split; [exact Hempty|exact Hnot].
  - exfalso. vm_compute in Hnot. discriminate Hnot.
Defined.

Lemma poll_for_entries_raises_only_its_timeout_witness :
  (∀ w0 e0, try_raises unparsable report vacant w0 e0 →
            absorbed_as_stated e0)
  ∧ ∃ e w',
      S3ObjectExpectation.to_exist unparsable 1 report 0 5 (Some ∅) vacant
        start = (Raise e, w')
      ∧ e = S3WaitTimeoutError "reports" "daily.json" 0.
Proof.
  assert (Honly : ∀ w0 e0, try_raises unparsable report vacant w0 e0 →
                           absorbed_as_stated e0).
  { intros w0 e0 [Hstore|(raw & Hstore & _)].
    - injection Hstore as <-. constructor.
    - discriminate Hstore. }
  assert (Hrun :
    S3ObjectExpectation.to_exist unparsable 1 report 0 5 (Some ∅) vacant
      start
    = (Raise (S3WaitTimeoutError "reports" "daily.json" 0),
       after_call vacant start (GetObject "reports" "daily.json")))
    by (vm_compute; reflexivity).
  split; [exact Honly|].
  exists (S3WaitTimeoutError "reports" "daily.json" 0),
         (after_call vacant start (GetObject "reports" "daily.json")).
  split; [exact Hrun|].
  exact (poll_for_entries_raises_only_its_timeout unparsable report 0 5 ∅ 1
           vacant start _ _ Honly Hrun).
Defined.

Lemma item_waits_pass_store_errors_on_witness :
  get_item_reply tableless (ticks start) "users" user_1
  = Raises (mk_ClientError "ResourceNotFoundException")
  ∧ DynamoDBItemExpectation.to_not_exist 1 users user_1 30 5 tableless start
    = (Raise (mk_ClientError "ResourceNotFoundException"),
       after_call tableless start (GetItem "users" user_1)).
Proof.
  split; [reflexivity|].
  destruct (item_waits_pass_store_errors_on 0 users user_1 30 5 None
              tableless start (mk_ClientError "ResourceNotFoundException"))
    as [Hitem _].
  destruct (Hitem eq_refl) as [_ Hgone]. exact Hgone.
Defined.
